(** * Consent routes of the interaction API

    A shallow embedding of [consentRoutes] (the [POST] and [GET] handlers of
    [${interactionPrefix}/consent]) together with its two helpers
    [parseMissingResourceScopesInfo] and [filterAndParseMissingResourceScopes],
    and the properties the consent resolution design relies on.

    Conventions of the embedding.
    - An [async] function is a computation in an error monad: a promise either
      resolves with a value or rejects with an error ([Outcome]).
    - [Promise.all] rejects with the rejection that settles first.  Completion
      order is not fixed by the program, so [Promise_all] takes the position of
      the winning rejection as an argument and every theorem quantifies over it.
    - The write path talks to its collaborators (membership validation, the
      batched insert, the provider's consent) through a log of the calls made,
      threaded by a state-and-error monad.
    - Persistence is a value of type [Queries]: each query is the function it
      computes on the current database.  Queries themselves do not fail unless
      their type says so.

    The scope picker of the role editor ([SourceScopesBox]) is embedded as the
    pure functions that compute what it offers, what it shows for a search
    keyword and what its two selection handlers hand to [onChange]. *)

From Stdlib Require Import String Ascii NArith ZArith List Bool Lia Sorted.
From stdpp Require Import base option list strings gmap.

Open Scope string_scope.
Open Scope list_scope.

(** ** JavaScript values and plain objects *)

Module Js.

(** A value of TypeScript type [unknown], as far as the handlers inspect it:
    truthiness and [typeof v === 'string']. *)
Inductive Unknown :=
| Undefined
| Null
| Boolean (b : bool)
| Number (z : Z)
| Str (s : string)
| Obj.

Definition truthy (v : Unknown) : bool :=
  match v with
  | Undefined | Null => false
  | Boolean b => b
  | Number z => negb (z =? 0)%Z
  | Str s => negb (s =? "")
  | Obj => true
  end.

Definition typeof_string (v : Unknown) : bool :=
  match v with Str _ => true | _ => false end.

(** The string a value narrows to once [v && typeof v === 'string'] holds. *)
Definition as_string (v : Unknown) : string :=
  match v with Str s => s | _ => "" end.

(** [Boolean(s)] for an optional string. *)
Definition Boolean_of (s : option string) : bool :=
  match s with
  | Some s => negb (s =? "")
  | None => false
  end.

(** *** Property keys

    A key is an array index when it is the canonical decimal spelling of an
    integer below [2^32 - 1]; such keys are enumerated first, in ascending
    numeric order, and the remaining string keys follow in creation order. *)

Definition digit (c : ascii) : option N :=
  let n := N_of_ascii c in
  if ((48 <=? n) && (n <=? 57))%N then Some (n - 48)%N else None.

Fixpoint decimal (acc : N) (s : string) : option N :=
  match s with
  | EmptyString => Some acc
  | String c s' =>
      match digit c with
      | Some d => decimal (acc * 10 + d)%N s'
      | None => None
      end
  end.

Definition array_index (key : string) : option N :=
  match key with
  | EmptyString => None
  | String c rest =>
      if (N_of_ascii c =? 48)%N
      then match rest with EmptyString => Some 0%N | _ => None end
      else match decimal 0 key with
           | Some n => if (n <? 2 ^ 32 - 1)%N then Some n else None
           | None => None
           end
  end.

(** *** Plain objects used as records ([Record<string, V>])

    The own properties of the object, in creation order.  A well-formed object
    has no repeated key. *)
Definition Object (V : Type) := list (string * V).

Definition keys {V} (o : Object V) : list string := map fst o.

Definition wf {V} (o : Object V) : Prop := NoDup (keys o).

(** [o[key] = v]: an existing property keeps its place. *)
Fixpoint assign {V} (key : string) (v : V) (o : Object V) : Object V :=
  match o with
  | [] => [(key, v)]
  | (k, w) :: o' => if k =? key then (k, v) :: o' else (k, w) :: assign key v o'
  end.

Definition tag_index {V} (p : string * V) : option (N * (string * V)) :=
  match array_index (fst p) with
  | Some i => Some (i, p)
  | None => None
  end.

Definition is_string_key {V} (p : string * V) : bool :=
  match array_index (fst p) with Some _ => false | None => true end.

Fixpoint insert_sorted {V} (x : N * (string * V)) (l : list (N * (string * V)))
  : list (N * (string * V)) :=
  match l with
  | [] => [x]
  | y :: l' => if (fst x <=? fst y)%N then x :: l else y :: insert_sorted x l'
  end.

Definition sort_by_index {V} (l : list (N * (string * V))) : list (N * (string * V)) :=
  foldr insert_sorted [] l.

(** Index properties, each carrying the index its key spells. *)
Definition tagged {V} (l : list (N * (string * V))) : Prop :=
  Forall (fun x => array_index (fst (snd x)) = Some (fst x)) l.

(** [Object.entries(o)]. *)
Definition entries {V} (o : Object V) : list (string * V) :=
  map snd (sort_by_index (omap tag_index o)) ++ List.filter is_string_key o.

(** [Object.fromEntries(l)]. *)
Definition fromEntries {V} (l : list (string * V)) : Object V :=
  fold_left (fun o p => assign (fst p) (snd p) o) l [].

End Js.

(** ** Promises and errors *)

(** The errors the routes raise.  [RequestError code] is what [assertThat]
    builds from an error code; the three [oidc-provider] errors carry their
    description; [ZodError] is a guard's [parse] refusing a value;
    [NotAMember] is the membership validator's rejection. *)
Inductive Error :=
| RequestError (code : string)
| InvalidClient (description : string)
| InvalidTarget (description : string)
| InvalidRedirectUri (description : string)
| ZodError
| NotAMember.

(** A settled promise. *)
Inductive Outcome (A : Type) :=
| Resolved (a : A)
| Rejected (e : Error).
Arguments Resolved {A} a.
Arguments Rejected {A} e.

#[global] Instance Outcome_ret : MRet Outcome := fun A a => Resolved a.
#[global] Instance Outcome_bind : MBind Outcome := fun A B f m =>
  match m with
  | Resolved a => f a
  | Rejected e => Rejected e
  end.
#[global] Instance Outcome_fmap : FMap Outcome := fun A B f m =>
  match m with
  | Resolved a => Resolved (f a)
  | Rejected e => Rejected e
  end.

Fixpoint rejections {A} (ps : list (Outcome A)) : list Error :=
  match ps with
  | [] => []
  | Resolved _ :: ps' => rejections ps'
  | Rejected e :: ps' => e :: rejections ps'
  end.

Fixpoint resolutions {A} (ps : list (Outcome A)) : list A :=
  match ps with
  | [] => []
  | Resolved a :: ps' => a :: resolutions ps'
  | Rejected _ :: ps' => resolutions ps'
  end.

(** [Promise.all(ps)]: the values in the order of [ps] when every promise
    resolves; otherwise the rejection that settles first, which is the one at
    position [first] among the rejections (the earliest in the list when
    [first] is out of range). *)
Definition Promise_all {A} (first : nat) (ps : list (Outcome A)) : Outcome (list A) :=
  match rejections ps with
  | [] => Resolved (resolutions ps)
  | e :: es => Rejected (nth first (e :: es) e)
  end.

(** Modelled from the spec: [assertThat] (utils/assert-that.js) lets a present
    value through and otherwise fails the request with the given error. *)
Definition assertThat {A} (value : option A) (error : Error) : Outcome A :=
  match value with
  | Some a => Resolved a
  | None => Rejected error
  end.

(** [assertThat] on a condition. *)
Definition assertTrue (value : bool) (error : Error) : Outcome unit :=
  assertThat (if value then Some tt else None) error.

(** ** Schemas *)

(** Modelled from the spec: the fields of [Scope] and of an organization scope
    that the consent page reads (both come from @logto/schemas). *)
Record Scope := {
  scope_id : string;
  scope_name : string;
}.

(** Modelled from the spec: a [Resource] row. *)
Record Resource := {
  resource_id : string;
  resource_name : string;
  resource_indicator : string;
}.

(** Modelled from the spec: an [Organization] row. *)
Record Organization := {
  organization_id : string;
  organization_name : string;
}.

(** The [resource] member of the object a lookup builds: the literal
    [{ id, name }] of the reserved branch, or the row found by indicator. *)
Inductive ResourceInfo :=
| ReservedInfo (id name : string)
| ResourceRow (row : Resource).

Definition info_id (r : ResourceInfo) : string :=
  match r with
  | ReservedInfo id _ => id
  | ResourceRow row => resource_id row
  end.

Definition info_name (r : ResourceInfo) : string :=
  match r with
  | ReservedInfo _ name => name
  | ResourceRow row => resource_name row
  end.

(** An element of [resourcesWithScopes]. *)
Record ResourceWithScopes := {
  rws_resource : ResourceInfo;
  rws_scopes : list Scope;
}.

(** [MissingResourceScopes]: [{ resource: { id, name }, scopes }]. *)
Record MissingResourceScopes := {
  mrs_resource_id : string;
  mrs_resource_name : string;
  mrs_scopes : list Scope;
}.

(** The interaction session. *)
Record Session := {
  accountId : string;
}.

Record Params := {
  client_id : Js.Unknown;
  redirect_uri : Js.Unknown;
}.

(** [EnvSet.values]. *)
Record EnvSet := {
  isDevFeaturesEnabled : bool;
}.

(** The completion order of the concurrent lookups of one [GET]: which
    rejection wins in the global enrichment, in the enrichment of each
    organization, and among the organizations. *)
Record Timing := {
  settle_global : nat;
  settle_organization : Organization -> nat;
  settle_organizations : nat;
}.

(** ** The tenant's interfaces *)

(** The queries of the tenant the routes use.  A lookup that reports absence
    by [null] returns an [option]; one that reports it by throwing returns an
    [Outcome].  The application, sign-in-experience and user rows are never
    looked into, so their types are left open. *)
Record Queries (Application ApplicationSignInExperience User : Type) := {
  organizations_scopes_findAll : list Scope;
  resources_findResourceByIndicator : string -> option Resource;
  scopes_findScopeByNameAndResourceId : string -> string -> option Scope;
  organizations_relations_users_getOrganizationsByUserId : string -> list Organization;
  applications_findApplicationById : string -> Outcome Application;
  applicationSignInExperiences_safeFindSignInExperienceByApplicationId :
    string -> option ApplicationSignInExperience;
  users_findUserById : string -> Outcome User;
}.
Arguments organizations_scopes_findAll {_ _ _} _.
Arguments resources_findResourceByIndicator {_ _ _} _ _.
Arguments scopes_findScopeByNameAndResourceId {_ _ _} _ _ _.
Arguments organizations_relations_users_getOrganizationsByUserId {_ _ _} _ _.
Arguments applications_findApplicationById {_ _ _} _ _.
Arguments applicationSignInExperiences_safeFindSignInExperienceByApplicationId {_ _ _} _ _.
Arguments users_findUserById {_ _ _} _ _.

(** [interactionDetails] of the request context. *)
Record InteractionDetails (Prompt : Type) := {
  session : option Session;
  params : Params;
  prompt : Prompt;
}.
Arguments session {_} _.
Arguments params {_} _.
Arguments prompt {_} _.

(** The calls the write path makes to its collaborators. *)
Inductive Call (Prompt : Type) :=
| ValidateMembership (userId : string) (organizationIds : list string)
| InsertUserConsentOrganizations (rows : list (string * string * string))
| Consent (interactionDetails : InteractionDetails Prompt).
Arguments ValidateMembership {_} _ _.
Arguments InsertUserConsentOrganizations {_} _.
Arguments Consent {_} _.

(** The grant tuples handed to the storage layer, and the interactions handed
    to the provider for finalization, along a log. *)
Definition persisted {Prompt} (log : list (Call Prompt)) : list (string * string * string) :=
  flat_map (fun call => match call with
                        | InsertUserConsentOrganizations rows => rows
                        | _ => []
                        end) log.

Definition finalized {Prompt} (log : list (Call Prompt)) : list (InteractionDetails Prompt) :=
  flat_map (fun call => match call with
                        | Consent interactionDetails => [interactionDetails]
                        | _ => []
                        end) log.

(** ** The scope picker of the role editor ([SourceScopesBox])

    The component keeps no logic in its markup: what it shows and what it hands
    to [onChange] are computed by the functions below from its props
    ([roleId], [selectedScopes]), its two fetches ([allResources],
    [roleScopes], absent until they arrive) and the search keyword. *)

Module SourceScopesBox.

(** [array.findIndex(p)]: the first position that satisfies [p], or [-1]. *)
Fixpoint findIndex {A} (p : A -> bool) (l : list A) : Z :=
  match l with
  | [] => (-1)%Z
  | x :: l' => if p x then 0%Z
               else let i := findIndex p l' in
                    if (i <? 0)%Z then (-1)%Z else (i + 1)%Z
  end.

(** [s.includes(sub)]. *)
Definition includes (s sub : string) : bool :=
  match String.index 0 sub s with
  | Some _ => true
  | None => false
  end.

(** Modelled from the spec: [ScopeResponse] (@logto/schemas), a scope together
    with the resource it belongs to. *)
Record ScopeResponse := {
  sr_id : string;
  sr_name : string;
  sr_resource : Resource;
}.

(** Modelled from the spec: [ResourceResponse] (@logto/schemas), a resource row
    with its scopes. *)
Record ResourceResponse := {
  rr_resource : Resource;
  rr_scopes : list Scope;
}.

(** [DetailedResourceResponse]: a resource with its scopes, each pointing back
    to the resource. *)
Record DetailedResourceResponse := {
  dr_resource : Resource;
  dr_scopes : list ScopeResponse;
}.

Definition isScopeAdded (selectedScopes : list ScopeResponse) (scope : ScopeResponse) : bool :=
  Z.leb 0 (findIndex (fun s => sr_id s =? sr_id scope) selectedScopes).

(** [onSelectScope]: the selection handed to [onChange]. *)
Definition onSelectScope (selectedScopes : list ScopeResponse) (scope : ScopeResponse)
  : list ScopeResponse :=
  if isScopeAdded selectedScopes scope
  then List.filter (fun s => negb (sr_id s =? sr_id scope)) selectedScopes
  else scope :: selectedScopes.

(** [onSelectResource]: the selection handed to [onChange]. *)
Definition onSelectResource (selectedScopes : list ScopeResponse)
    (resource : DetailedResourceResponse) : list ScopeResponse :=
  let resourceScopes := dr_scopes resource in
  let isAllSelected := forallb (fun scope => isScopeAdded selectedScopes scope) resourceScopes in
  let resourceScopesIds : gset string := list_to_set (map sr_id resourceScopes) in
  let selectedScopesExcludeResourceScopes :=
    List.filter (fun s => negb (bool_decide (sr_id s ∈ resourceScopesIds))) selectedScopes in
  if isAllSelected
  then selectedScopesExcludeResourceScopes
  else resourceScopes ++ selectedScopesExcludeResourceScopes.

Definition getResourceSelectedScopes (selectedScopes : list ScopeResponse)
    (resource : DetailedResourceResponse) : list ScopeResponse :=
  List.filter
    (fun scope => Z.leb 0 (findIndex (fun s => sr_id s =? sr_id scope) selectedScopes))
    (dr_scopes resource).

(** [resources]: the resources on offer, without the scopes the role already
    has and without the scope [managementApiScopeAll] (a constant of
    @logto/schemas). *)
Definition resources (managementApiScopeAll : string) (roleId : option string)
    (allResources : option (list ResourceResponse)) (roleScopes : option (list Scope))
  : list DetailedResourceResponse :=
  match allResources with
  | None => []
  | Some allResources =>
      if Js.Boolean_of roleId && negb (bool_decide (is_Some roleScopes)) then []
      else
        let existingScopeIds := default [] (map scope_id <$> roleScopes) in
        let excludeScopeIds : gset string :=
          list_to_set (existingScopeIds ++ [managementApiScopeAll]) in
        map (fun r =>
               let resource := rr_resource r in
               {| dr_resource := resource;
                  dr_scopes :=
                    map (fun scope => {| sr_id := scope_id scope;
                                         sr_name := scope_name scope;
                                         sr_resource := resource |})
                        (List.filter
                           (fun scope => negb (bool_decide (scope_id scope ∈ excludeScopeIds)))
                           (rr_scopes r)) |})
            (List.filter
               (fun r => existsb
                           (fun scope => negb (bool_decide (scope_id scope ∈ excludeScopeIds)))
                           (rr_scopes r))
               allResources)
  end.

(** [dataSource]: the resources shown for the search keyword.  The two
    lower-casing functions of the platform are left open. *)
Definition dataSource (toLowerCase toLocaleLowerCase : string -> string)
    (keyword : string) (resources : list DetailedResourceResponse)
  : list DetailedResourceResponse :=
  let lowerCasedKeyword := toLowerCase keyword in
  if lowerCasedKeyword =? "" then resources
  else
    List.filter (fun r => (0 <? length (dr_scopes r))%nat)
      (map (fun r =>
              {| dr_resource := dr_resource r;
                 dr_scopes :=
                   List.filter
                     (fun scope =>
                        includes (toLocaleLowerCase (sr_name scope)) lowerCasedKeyword
                        || includes (toLocaleLowerCase (resource_name (sr_resource scope)))
                                    lowerCasedKeyword)
                     (dr_scopes r) |})
           (List.filter
              (fun r =>
                 includes (toLowerCase (resource_name (dr_resource r))) lowerCasedKeyword
                 || existsb (fun scope => includes (toLowerCase (sr_name scope))
                                                   lowerCasedKeyword)
                            (dr_scopes r))
              resources)).

(** [isLoading], [hasError] and [isEmpty], as conditions. *)
Definition isLoading {E} (roleId : option string)
    (allResources : option (list ResourceResponse)) (fetchAllResourcesError : option E)
    (roleScopes : option (list Scope)) (fetchRoleScopesError : option E) : bool :=
  (negb (bool_decide (is_Some allResources)) && negb (bool_decide (is_Some fetchAllResourcesError)))
  || (Js.Boolean_of roleId && negb (bool_decide (is_Some roleScopes))
      && negb (bool_decide (is_Some fetchRoleScopesError))).

Definition hasError {E} (roleId : option string)
    (fetchAllResourcesError fetchRoleScopesError : option E) : bool :=
  bool_decide (is_Some fetchAllResourcesError)
  || (Js.Boolean_of roleId && bool_decide (is_Some fetchRoleScopesError)).

Definition isEmpty (isLoading hasError : bool) (dataSource : list DetailedResourceResponse)
  : bool :=
  negb isLoading && negb hasError && (length dataSource =? 0)%nat.

End SourceScopesBox.

(** ** Mapping over the values of a plain object

    What a callback of the form [([key, value]) => [key, g(key, value)]] does
    to an entry, and to an index property carrying its index. *)

Module JsMap.

Definition on_values {V W} (g : string -> V -> W) (p : string * V) : string * W :=
  (fst p, g (fst p) (snd p)).

Definition on_tagged {V W} (g : string -> V -> W) (x : N * (string * V))
  : N * (string * W) :=
  (fst x, on_values g (snd x)).

End JsMap.

(** ** A sample tenant

    One user, [user-1], member of [org-1] only; two resources, of which the
    second owns no scope; one organization scope.  Rows that the routes do not
    look into are plain strings, and the prompt is the missing scopes it
    reports. *)

Module Sample.

Definition reserved : string := "urn:logto:resource:organizations".
Definition organizations : string := "urn:logto:scope:organizations".

Definition api : Resource :=
  {| resource_id := "res-1"; resource_name := "Orders API";
     resource_indicator := "https://api.example.com" |}.

Definition files : Resource :=
  {| resource_id := "res-2"; resource_name := "Files API";
     resource_indicator := "https://files.example.com" |}.

Definition read_orders : Scope := {| scope_id := "s-1"; scope_name := "read:orders" |}.
Definition read_member : Scope := {| scope_id := "os-1"; scope_name := "read:member" |}.

Definition org1 : Organization := {| organization_id := "org-1"; organization_name := "One" |}.

Definition queries : Queries string string string :=
  {| organizations_scopes_findAll := [read_member];
     resources_findResourceByIndicator := fun indicator =>
       if indicator =? "https://api.example.com" then Some api
       else if indicator =? "https://files.example.com" then Some files
       else None;
     scopes_findScopeByNameAndResourceId := fun name resourceId =>
       if (name =? "read:orders") && (resourceId =? "res-1") then Some read_orders else None;
     organizations_relations_users_getOrganizationsByUserId := fun userId =>
       if userId =? "user-1" then [org1] else [];
     applications_findApplicationById := fun id => Resolved id;
     applicationSignInExperiences_safeFindSignInExperienceByApplicationId := fun _ => None;
     users_findUserById := fun id => Resolved id |}.

Definition Prompt : Type := option (list string) * option (Js.Object (list string)).

Definition getMissingScopes (prompt : Prompt) : Outcome Prompt := Resolved prompt.

Definition guard (row : string) : Outcome string := Resolved row.

Definition any {A} (_ : A) : bool := true.

Definition no_scopes (_ : Queries string string string) (_ _ : string) (_ : bool)
    (_ : option string) : list Scope := [].

Definition off : EnvSet := {| isDevFeaturesEnabled := false |}.

Definition timing : Timing :=
  {| settle_global := 0; settle_organization := fun _ => 0; settle_organizations := 0 |}.

(** The mapping of a prompt that asks for one unknown scope of the files
    resource, one organization scope, and one known and one unknown scope of
    the orders resource. *)
Definition missing : Js.Object (list string) :=
  [("https://files.example.com", ["read:ghost"]);
   (reserved, ["read:member"]);
   ("https://api.example.com", ["read:orders"; "read:ghost"])].

Definition enrichment : list MissingResourceScopes :=
  [{| mrs_resource_id := reserved; mrs_resource_name := reserved;
      mrs_scopes := [read_member] |};
   {| mrs_resource_id := "res-1"; mrs_resource_name := "Orders API";
      mrs_scopes := [read_orders] |}].

Definition details (client : Js.Unknown) (prompt : Prompt) : InteractionDetails Prompt :=
  {| session := Some {| accountId := "user-1" |};
     params := {| client_id := client; redirect_uri := Js.Str "https://app.example.com/cb" |};
     prompt := prompt |}.

(** The provider's answer: where to send the browser back. *)
Definition provider (_ : list (Call Prompt)) (_ : InteractionDetails Prompt) : Outcome string :=
  Resolved "https://app.example.com/cb?code=1".

End Sample.

(** ** More samples

    A tenant with the dev features enabled, where the user is granted the
    scope [read:orders] on the orders resource and nothing else; and a role
    editor in which the orders resource has two scopes and the files resource
    only the one scope that is never offered. *)

Module Fixture.

Definition on : EnvSet := {| isDevFeaturesEnabled := true |}.

Definition granted (_ : Queries string string string) (indicator _ : string) (_ : bool)
    (_ : option string) : list Scope :=
  if indicator =? "https://api.example.com" then [Sample.read_orders] else [].

(** A mapping with an indicator that names no resource. *)
Definition stray : Js.Object (list string) :=
  [("https://api.example.com", ["read:orders"]);
   ("https://nowhere.example.com", ["read:orders"])].

Definition managementApiScopeAll : string := "management-api-all".

Definition write_orders : Scope := {| scope_id := "s-2"; scope_name := "write:orders" |}.
Definition everything : Scope := {| scope_id := managementApiScopeAll; scope_name := "all" |}.

Definition fetched : list SourceScopesBox.ResourceResponse :=
  [{| SourceScopesBox.rr_resource := Sample.api;
      SourceScopesBox.rr_scopes := [Sample.read_orders; write_orders] |};
   {| SourceScopesBox.rr_resource := Sample.files;
      SourceScopesBox.rr_scopes := [everything] |}].

Definition read : SourceScopesBox.ScopeResponse :=
  {| SourceScopesBox.sr_id := "s-1"; SourceScopesBox.sr_name := "read:orders";
     SourceScopesBox.sr_resource := Sample.api |}.

Definition write : SourceScopesBox.ScopeResponse :=
  {| SourceScopesBox.sr_id := "s-2"; SourceScopesBox.sr_name := "write:orders";
     SourceScopesBox.sr_resource := Sample.api |}.

Definition orders : SourceScopesBox.DetailedResourceResponse :=
  {| SourceScopesBox.dr_resource := Sample.api;
     SourceScopesBox.dr_scopes := [read; write] |}.

(** The search ignores case the ASCII way in this sample: names are already
    lower case. *)
Definition lower (s : string) : string := s.

(** The sample tenant with [user-1] a member of two organizations. *)
Definition org2 : Organization := {| organization_id := "org-2"; organization_name := "Two" |}.

Definition both : Queries string string string :=
  {| organizations_scopes_findAll := organizations_scopes_findAll Sample.queries;
     resources_findResourceByIndicator := resources_findResourceByIndicator Sample.queries;
     scopes_findScopeByNameAndResourceId :=
       scopes_findScopeByNameAndResourceId Sample.queries;
     organizations_relations_users_getOrganizationsByUserId := fun userId =>
       if userId =? "user-1" then [Sample.org1; org2] else [];
     applications_findApplicationById := applications_findApplicationById Sample.queries;
     applicationSignInExperiences_safeFindSignInExperienceByApplicationId :=
       applicationSignInExperiences_safeFindSignInExperienceByApplicationId Sample.queries;
     users_findUserById := users_findUserById Sample.queries |}.

End Fixture.

(** ** The routes *)

Section Routes.

(** [ReservedResource.Organization] and [UserScope.Organizations] of
    @logto/core-kit. *)
Variable ReservedResource_Organization : string.
Variable UserScope_Organizations : string.

Variable EnvSet_values : EnvSet.

(** Rows and views whose fields the routes never look into. *)
Variables Application ApplicationSignInExperience User Prompt : Type.
Variables PublicApplication PublicApplicationSignInExperience PublicUserInfo : Type.

Implicit Types queries : Queries Application ApplicationSignInExperience User.
Implicit Types interactionDetails : InteractionDetails Prompt.

(** What the shape of [missingResourceScopesGuard] demands of a resource and of
    a scope is left open. *)
Variable resource_shape : ResourceInfo -> bool.
Variable scope_shape : Scope -> bool.

(** Modelled from the spec: [missingResourceScopesGuard] (@logto/schemas) checks
    an assembled record against the shape [{ resource: { id, name }, scopes }]
    and returns it cut down to those fields; a violation is a contract failure,
    raised by [parse]. *)
Definition missingResourceScopesGuard_parse (value : ResourceWithScopes)
  : Outcome MissingResourceScopes :=
  if resource_shape (rws_resource value) && forallb scope_shape (rws_scopes value)
  then Resolved {| mrs_resource_id := info_id (rws_resource value);
                   mrs_resource_name := info_name (rws_resource value);
                   mrs_scopes := rws_scopes value |}
  else Rejected ZodError.

(** The other guards of @logto/schemas, and [getMissingScopes] and
    [findResourceScopes] of the core libraries. *)
Variable publicApplicationGuard_parse : Application -> Outcome PublicApplication.
Variable applicationSignInExperienceGuard_parse :
  ApplicationSignInExperience -> Outcome PublicApplicationSignInExperience.
Variable publicUserInfoGuard_parse : User -> Outcome PublicUserInfo.
Variable getMissingScopes :
  Prompt -> Outcome (option (list string) * option (Js.Object (list string))).

(** Modelled from the spec: [findResourceScopes] (oidc/resource.js) returns the
    scopes the resource grants the user, directly or through the given
    organization, and the empty list when none apply. *)
Variable findResourceScopes :
  Queries Application ApplicationSignInExperience User ->
  forall (indicator userId : string) (findFromOrganizations : bool)
         (organizationId : option string), list Scope.

(** *** [parseMissingResourceScopesInfo] *)

(** The callback mapped over [Object.entries(missingResourceScopes)]: the
    lookup of one indicator.  The scope lookups of the second branch never
    reject, so their [Promise.all] is the list of their results. *)
Definition resourceWithScopes queries (entry : string * list string)
  : Outcome ResourceWithScopes :=
  let '(resourceIndicator, scopeNames) := entry in
  if resourceIndicator =? ReservedResource_Organization then
    let organizationScopes := organizations_scopes_findAll queries in
    scopes ← mapM (fun scopeName =>
                     let scope := List.find (fun scope => scope_name scope =? scopeName)
                                            organizationScopes in
                     assertThat scope
                       (InvalidTarget ("scope with name " +:+ scopeName +:+
                                       " not found for organization resource")))
                  scopeNames;
    mret {| rws_resource := ReservedInfo resourceIndicator resourceIndicator;
            rws_scopes := scopes |}
  else
    resource ← assertThat (resources_findResourceByIndicator queries resourceIndicator)
                          (InvalidTarget ("resource with indicator " +:+ resourceIndicator +:+
                                          " not found"));
    let scopes := map (fun scopeName =>
                         scopes_findScopeByNameAndResourceId queries scopeName
                                                             (resource_id resource))
                      scopeNames in
    mret {| rws_resource := ResourceRow resource;
            rws_scopes := omap id scopes |}.

Definition parseMissingResourceScopesInfo (first : nat) queries
    (missingResourceScopes : option (Js.Object (list string)))
  : Outcome (list MissingResourceScopes) :=
  match missingResourceScopes with
  | None => mret []
  | Some missingResourceScopes =>
      resourcesWithScopes ← Promise_all first
        (map (resourceWithScopes queries) (Js.entries missingResourceScopes));
      mapM missingResourceScopesGuard_parse
           (List.filter (fun r => (0 <? length (rws_scopes r))%nat) resourcesWithScopes)
  end.

(** *** [filterAndParseMissingResourceScopes] *)

(** [filteredResourceScopes]. *)
Definition filteredResourceScopes (resourceScopes : Js.Object (list string))
    queries (userId : string) (organizationId : option string)
  : Js.Object (list string) :=
  Js.fromEntries
    (map (fun '(resourceIndicator, missingScopes) =>
            if negb (isDevFeaturesEnabled EnvSet_values)
            then (resourceIndicator, missingScopes)
            else
              let scopes := findResourceScopes queries resourceIndicator userId
                              (Js.Boolean_of organizationId) organizationId in
              (resourceIndicator,
               List.filter (fun scope => existsb (fun s => scope_name s =? scope) scopes)
                           missingScopes))
         (Js.entries resourceScopes)).

Definition filterAndParseMissingResourceScopes (first : nat)
    (resourceScopes : Js.Object (list string)) queries
    (userId : string) (organizationId : option string)
  : Outcome (list MissingResourceScopes) :=
  parseMissingResourceScopesInfo first queries
    (Some (filteredResourceScopes resourceScopes queries userId organizationId)).

(** *** [POST /interaction/consent] *)

(** A routine of the write path: it extends the log of calls, and the log is
    kept when the routine rejects. *)
Definition Routine (A : Type) : Type := list (Call Prompt) -> Outcome A * list (Call Prompt).

#[global] Instance Routine_ret : MRet Routine := fun A a log => (Resolved a, log).
#[global] Instance Routine_bind : MBind Routine := fun A B f m log =>
  match m log with
  | (Resolved a, log') => f a log'
  | (Rejected e, log') => (Rejected e, log')
  end.

(** A pure step inside a routine. *)
Definition lift {A} (m : Outcome A) : Routine A := fun log => (m, log).

(** Modelled from the spec: [validateUserConsentOrganizationMembership]
    (libraries/applications) requires the user to be a member of every given
    organization and fails as a whole with a not-a-member error otherwise. *)
Definition validateUserConsentOrganizationMembership queries
    (userId : string) (organizationIds : list string) : Routine unit :=
  fun log =>
    let userOrganizations :=
      organizations_relations_users_getOrganizationsByUserId queries userId in
    (assertTrue
       (forallb (fun organizationId =>
                   existsb (fun organization => organization_id organization =? organizationId)
                           userOrganizations)
                organizationIds)
       NotAMember,
     log ++ [ValidateMembership userId organizationIds]).

(** [queries.applications.userConsentOrganizations.insert(...rows)]: one batch
    handed to the storage layer. *)
Definition userConsentOrganizations_insert (rows : list (string * string * string))
  : Routine unit :=
  fun log => (Resolved tt, log ++ [InsertUserConsentOrganizations rows]).

(** [consent] of libraries/session.js: the provider finalizes the interaction
    and answers with the redirect target, or fails; its answer may depend on
    what was done before it. *)
Variable consent_result : list (Call Prompt) -> InteractionDetails Prompt -> Outcome string.

Definition consent interactionDetails : Routine string :=
  fun log => (consent_result log interactionDetails, log ++ [Consent interactionDetails]).

(** The request body accepted by the guard of the [POST] route. *)
Record ConsentRequest := {
  organizationIds : option (list string);
}.

Record ConsentResult := {
  redirectTo : string;
}.

(** [organizationIds?.length] as a condition. *)
Definition has_length (organizationIds : option (list string)) : option (list string) :=
  match organizationIds with
  | Some (id :: ids) => Some (id :: ids)
  | _ => None
  end.

Definition post_consent queries interactionDetails (body : ConsentRequest)
  : Routine ConsentResult :=
  match has_length (organizationIds body) with
  | Some organizationIds =>
      let applicationId := client_id (params interactionDetails) in
      session ← lift (assertThat (session interactionDetails)
                                 (RequestError "session.not_found"));
      _ ← lift (assertTrue (Js.truthy applicationId && Js.typeof_string applicationId)
                           (InvalidClient "client must be available"));
      let applicationId := Js.as_string applicationId in
      let userId := accountId session in
      _ ← validateUserConsentOrganizationMembership queries userId organizationIds;
      userConsentOrganizations_insert
        (map (fun organizationId => (applicationId, userId, organizationId))
             organizationIds)
  | None => mret tt
  end ≫= fun _ =>
  redirectTo ← consent interactionDetails;
  mret {| redirectTo := redirectTo |}.

(** *** [GET /interaction/consent] *)

Record OrganizationInfo := {
  oi_name : string;
  oi_id : string;
  oi_missingResourceScopes : option (list MissingResourceScopes);
}.

(** [ConsentInfoResponse].  The application view is the public application
    overlaid with the sign-in-experience fields when there are any. *)
Record ConsentInfoResponse := {
  cir_application : PublicApplication * option PublicApplicationSignInExperience;
  cir_user : PublicUserInfo;
  cir_organizations : list OrganizationInfo;
  cir_missingOIDCScope : option (list string);
  cir_missingResourceScopes : list MissingResourceScopes;
  cir_redirectUri : string;
}.

(** [missingOIDCScope?.includes(scope)] as a condition. *)
Definition includes (missingOIDCScope : option (list string)) (scope : string) : bool :=
  match missingOIDCScope with
  | Some scopes => existsb (fun s => s =? scope) scopes
  | None => false
  end.

Definition get_consent (timing : Timing) queries interactionDetails
  : Outcome ConsentInfoResponse :=
  let clientId := client_id (params interactionDetails) in
  let redirectUri := redirect_uri (params interactionDetails) in
  session ← assertThat (session interactionDetails) (RequestError "session.not_found");
  _ ← assertTrue (Js.truthy clientId && Js.typeof_string clientId)
                 (InvalidClient "client must be available");
  _ ← assertTrue (Js.truthy redirectUri && Js.typeof_string redirectUri)
                 (InvalidRedirectUri "redirect_uri must be available");
  let clientId := Js.as_string clientId in
  let redirectUri := Js.as_string redirectUri in
  let accountId := accountId session in
  application ← applications_findApplicationById queries clientId;
  let applicationSignInExperience :=
    applicationSignInExperiences_safeFindSignInExperienceByApplicationId queries clientId in
  userInfo ← users_findUserById queries accountId;
  missing ← getMissingScopes (prompt interactionDetails);
  let missingOIDCScope := fst missing in
  let allMissingResourceScopes := default [] (snd missing) in
  missingResourceScopes ←
    filterAndParseMissingResourceScopes (settle_global timing) allMissingResourceScopes
                                        queries accountId None;
  let organizations :=
    if includes missingOIDCScope UserScope_Organizations
    then organizations_relations_users_getOrganizationsByUserId queries accountId
    else [] in
  organizationsWithMissingResourceScopes ← Promise_all (settle_organizations timing)
    (map (fun organization =>
            let name := organization_name organization in
            let id := organization_id organization in
            if negb (isDevFeaturesEnabled EnvSet_values)
            then mret {| oi_name := name; oi_id := id; oi_missingResourceScopes := None |}
            else
              missingResourceScopes ←
                filterAndParseMissingResourceScopes (settle_organization timing organization)
                  allMissingResourceScopes queries accountId (Some id);
              mret {| oi_name := name; oi_id := id;
                      oi_missingResourceScopes := Some missingResourceScopes |})
         organizations);
  publicApplication ← publicApplicationGuard_parse application;
  publicSignInExperience ←
    match applicationSignInExperience with
    | Some experience => Some <$> applicationSignInExperienceGuard_parse experience
    | None => mret None
    end;
  publicUser ← publicUserInfoGuard_parse userInfo;
  mret {| cir_application := (publicApplication, publicSignInExperience);
          cir_user := publicUser;
          cir_organizations := organizationsWithMissingResourceScopes;
          cir_missingOIDCScope :=
            List.filter (fun scope => negb (scope =? "openid") && negb (scope =? "offline_access"))
              <$> missingOIDCScope;
          cir_missingResourceScopes := missingResourceScopes;
          cir_redirectUri := redirectUri |}.

(** *** Vocabulary of the properties *)

(** The lookup of [entry] yields at least one scope. *)
Definition contributes queries (entry : string * list string) : bool :=
  match resourceWithScopes queries entry with
  | Resolved r => (0 <? length (rws_scopes r))%nat
  | Rejected _ => false
  end.

(** [record] is what the enricher returns for [entry]: the lookup of the entry,
    passed through the guard. *)
Definition enriched queries (entry : string * list string)
    (record : MissingResourceScopes) : Prop :=
  exists r, resourceWithScopes queries entry = Resolved r /\
            missingResourceScopesGuard_parse r = Resolved record.

(** The user is a member of the organization. *)
Definition is_member queries (userId organizationId : string) : Prop :=
  exists organization,
    In organization (organizations_relations_users_getOrganizationsByUserId queries userId) /\
    organization_id organization = organizationId.

(** The run of the [POST] route from [log] gets as far as validating the
    membership of [userId] in [ids]. *)
Definition validates queries interactionDetails (body : ConsentRequest)
    (log : list (Call Prompt)) (userId : string) (ids : list string) : Prop :=
  exists rest,
    snd (post_consent queries interactionDetails body log)
    = log ++ ValidateMembership userId ids :: rest.

(** What the [POST] route answers from the provider's answer. *)
Definition respond (answer : Outcome string) : Outcome ConsentResult :=
  (fun redirectTo => {| redirectTo := redirectTo |}) <$> answer.

(** ** Properties *)

(** *** Plain objects *)

Section JsFacts.
Context {V : Type}.
Implicit Types (o : Js.Object V) (l : list (string * V)) (t : list (N * (string * V))).

Lemma Js_assign_fresh key (v : V) o :
  ~ In key (Js.keys o) -> Js.assign key v o = o ++ [(key, v)].
Proof.
  induction o as [|[k w] o IH]; simpl; intros Hfresh; [reflexivity|].
  destruct (String.eqb_spec k key) as [->|Hne]; [tauto|].
  rewrite IH; [reflexivity|tauto].
Qed.

Lemma Js_fromEntries_from acc l :
  NoDup (Js.keys (acc ++ l)) ->
  fold_left (fun o p => Js.assign (fst p) (snd p) o) l acc = acc ++ l.
Proof.
  revert acc. induction l as [|[k v] l IH]; intros acc Hnd; simpl.
  - by rewrite app_nil_r.
  - rewrite Js_assign_fresh.
    + rewrite IH; rewrite <- app_assoc; [reflexivity|exact Hnd].
    + unfold Js.keys in Hnd. rewrite map_app in Hnd. simpl in Hnd.
      apply NoDup_app in Hnd as (_ & Hdisj & _).
      intros Hin. apply (Hdisj k); [by apply list_elem_of_In|]. left.
Qed.

(** Building an object from entries with distinct keys creates the
    properties in the order of the entries. *)
Lemma Js_fromEntries_wf l : Js.wf l -> Js.fromEntries l = l.
Proof. intros Hwf. unfold Js.fromEntries. by rewrite Js_fromEntries_from. Qed.

Lemma Js_insert_sorted_perm x t : Js.insert_sorted x t ≡ₚ x :: t.
Proof.
  induction t as [|y t IH]; simpl; [reflexivity|].
  destruct (fst x <=? fst y)%N; [reflexivity|].
  rewrite IH. apply Permutation_swap.
Qed.

Lemma Js_sort_by_index_perm t : Js.sort_by_index t ≡ₚ t.
Proof.
  induction t as [|x t IH]; simpl; [reflexivity|].
  rewrite Js_insert_sorted_perm. by rewrite IH.
Qed.

Lemma Js_insert_sorted_head x t :
  Forall (fun y => (fst x <= fst y)%N) t -> Js.insert_sorted x t = x :: t.
Proof.
  destruct t as [|y t]; simpl; [reflexivity|].
  intros H. inversion H as [|? ? Hle _]; subst.
  apply N.leb_le in Hle. by rewrite Hle.
Qed.

Lemma Js_insert_sorted_sorted x t :
  StronglySorted (fun a b => (fst a <= fst b)%N) t ->
  StronglySorted (fun a b => (fst a <= fst b)%N) (Js.insert_sorted x t).
Proof.
  induction t as [|y t IH]; simpl; intros Hs.
  - repeat constructor.
  - inversion Hs as [|? ? Hst Hall]; subst.
    destruct (N.leb_spec (fst x) (fst y)) as [Hle|Hgt].
    + constructor; [exact Hs|]. constructor; [exact Hle|].
      eapply Forall_impl; [exact Hall|]. simpl. intros; lia.
    + constructor; [by apply IH|].
      rewrite Js_insert_sorted_perm. constructor; [lia|exact Hall].
Qed.

Lemma Js_sort_by_index_sorted t :
  StronglySorted (fun a b => (fst a <= fst b)%N) (Js.sort_by_index t).
Proof.
  induction t as [|x t IH]; simpl; [constructor|by apply Js_insert_sorted_sorted].
Qed.

Lemma Js_sort_by_index_fixed t :
  StronglySorted (fun a b => (fst a <= fst b)%N) t -> Js.sort_by_index t = t.
Proof.
  induction 1 as [|x t Hs IH Hall]; simpl; [reflexivity|].
  rewrite IH. by apply Js_insert_sorted_head.
Qed.

Lemma Js_tag_index_tagged l : Js.tagged (omap Js.tag_index l).
Proof.
  induction l as [|p l IH]; simpl; [constructor|].
  unfold Js.tag_index at 1. destruct (Js.array_index (fst p)) eqn:E; simpl; [|exact IH].
  constructor; [exact E|exact IH].
Qed.

Lemma Js_tagged_retag t : Js.tagged t -> omap Js.tag_index (map snd t) = t.
Proof.
  induction 1 as [|[i p] t Hx _ IH]; [reflexivity|].
  rewrite map_cons. simpl in Hx |- *. unfold Js.tag_index at 1. simpl. rewrite Hx.
  f_equal. exact IH.
Qed.

Lemma Js_tagged_no_string_key t : Js.tagged t -> List.filter Js.is_string_key (map snd t) = [].
Proof.
  induction 1 as [|[i p] t Hx _ IH]; [reflexivity|].
  simpl in Hx |- *. unfold Js.is_string_key at 1. simpl. rewrite Hx. exact IH.
Qed.

Lemma Js_string_keys_untagged l : omap Js.tag_index (List.filter Js.is_string_key l) = [].
Proof.
  induction l as [|p l IH]; simpl; [reflexivity|].
  unfold Js.is_string_key at 1. destruct (Js.array_index (fst p)) eqn:E; [exact IH|].
  simpl. unfold Js.tag_index at 1. by rewrite E.
Qed.

Lemma Js_string_keys_idem l :
  List.filter Js.is_string_key (List.filter Js.is_string_key l) = List.filter Js.is_string_key l.
Proof.
  induction l as [|p l IH]; simpl; [reflexivity|].
  destruct (Js.is_string_key p) eqn:E; [|exact IH]. simpl. by rewrite E, IH.
Qed.

(** Enumerating twice is enumerating once: the entries are already in
    enumeration order. *)
Lemma Js_entries_idem o : Js.entries (Js.entries o) = Js.entries o.
Proof.
  unfold Js.entries.
  assert (Ht : Js.tagged (Js.sort_by_index (omap Js.tag_index o))).
  { unfold Js.tagged. rewrite Js_sort_by_index_perm. apply Js_tag_index_tagged. }
  rewrite omap_app, List.filter_app, Js_tagged_retag, Js_string_keys_untagged,
    Js_tagged_no_string_key, Js_string_keys_idem, app_nil_r by exact Ht.
  simpl. f_equal. f_equal.
  apply Js_sort_by_index_fixed, Js_sort_by_index_sorted.
Qed.

Lemma Js_entries_perm o : Js.entries o ≡ₚ o.
Proof.
  unfold Js.entries.
  induction o as [|p o IH]; simpl; [reflexivity|].
  unfold Js.tag_index at 1, Js.is_string_key at 1.
  destruct (Js.array_index (fst p)) eqn:E; simpl.
  - rewrite Js_insert_sorted_perm. simpl. by rewrite IH.
  - rewrite <- Permutation_middle. by rewrite IH.
Qed.

Lemma Js_entries_wf o : Js.wf o -> Js.wf (Js.entries o).
Proof.
  unfold Js.wf, Js.keys. intros H.
  assert (P : map fst (Js.entries o) ≡ₚ map fst o)
    by apply Permutation_map, Js_entries_perm.
  by rewrite P.
Qed.

(** [Object.entries(Object.fromEntries(Object.entries(o)))] lists the entries
    of [o]. *)
Lemma Js_entries_roundtrip o :
  Js.wf o -> Js.entries (Js.fromEntries (Js.entries o)) = Js.entries o.
Proof.
  intros Hwf. rewrite Js_fromEntries_wf by by apply Js_entries_wf.
  apply Js_entries_idem.
Qed.
End JsFacts.

(** *** Promises *)

Lemma rejections_In {A} (ps : list (Outcome A)) e :
  In e (rejections ps) <-> In (Rejected e) ps.
Proof.
  induction ps as [|[a|e'] ps IH]; simpl; [tauto| |].
  - rewrite IH. split; [tauto|]. intros [H|H]; [discriminate|exact H].
  - rewrite IH. split; intros [H|H]; auto; left; congruence.
Qed.

Lemma resolutions_all {A} (ps : list (Outcome A)) :
  rejections ps = [] -> ps = map Resolved (resolutions ps).
Proof.
  induction ps as [|[a|e] ps IH]; simpl; intros H; [reflexivity| |discriminate].
  f_equal. by apply IH.
Qed.

Lemma Promise_all_Resolved {A} first (ps : list (Outcome A)) vs :
  Promise_all first ps = Resolved vs -> ps = map Resolved vs.
Proof.
  unfold Promise_all. destruct (rejections ps) eqn:E; [|discriminate].
  intros [= <-]. by apply resolutions_all.
Qed.

(** Whatever the completion order, one rejected promise makes [Promise.all]
    reject, with the rejection of one of the promises. *)
Lemma Promise_all_rejects {A} first (ps : list (Outcome A)) e :
  In (Rejected e) ps ->
  exists e', Promise_all first ps = Rejected e' /\ In (Rejected e') ps.
Proof.
  intros Hin. apply rejections_In in Hin. unfold Promise_all.
  destruct (rejections ps) as [|e0 es] eqn:E; [destruct Hin|].
  eexists; split; [reflexivity|]. apply rejections_In. rewrite E.
  destruct (Nat.lt_ge_cases first (length (e0 :: es))) as [Hlt|Hge].
  - by apply nth_In.
  - rewrite nth_overflow by exact Hge. by left.
Qed.

Lemma mapM_Resolved {A B} (f : A -> Outcome B) l ys :
  mapM f l = Resolved ys <-> Forall2 (fun x y => f x = Resolved y) l ys.
Proof.
  revert ys. induction l as [|x l IH]; intros ys; simpl.
  - split; [intros [= <-]; constructor | by inversion 1].
  - destruct (f x) as [y|e] eqn:Ex; simpl.
    + destruct (mapM f l) as [k|e] eqn:El; simpl.
      * split.
        -- intros [= <-]. constructor; [exact Ex|]. by apply IH.
        -- inversion 1 as [|? y' ? k' Hy Hk]; subst.
           apply IH in Hk. rewrite Ex in Hy.
           injection Hy as <-. injection Hk as <-. reflexivity.
      * split; [discriminate|].
        inversion 1 as [|? y' ? k' Hy Hk]; subst. apply IH in Hk. discriminate.
    + split; [discriminate|]. inversion 1; congruence.
Qed.

Lemma mapM_rejects {A B} (f : A -> Outcome B) l x e :
  In x l -> f x = Rejected e ->
  exists x' e', In x' l /\ f x' = Rejected e' /\ mapM f l = Rejected e'.
Proof.
  induction l as [|x0 l IH]; simpl; [tauto|]. intros Hin Hx.
  destruct (f x0) as [y|e0] eqn:E0; simpl.
  - destruct Hin as [->|Hin]; [congruence|].
    destruct (IH Hin Hx) as (x' & e' & Hin' & Hx' & HM).
    exists x', e'. rewrite HM. auto.
  - exists x0, e0. auto.
Qed.

(** *** The guard *)

Lemma missingResourceScopesGuard_parse_fields r record :
  missingResourceScopesGuard_parse r = Resolved record ->
  mrs_resource_id record = info_id (rws_resource r) /\
  mrs_resource_name record = info_name (rws_resource r) /\
  mrs_scopes record = rws_scopes r.
Proof.
  unfold missingResourceScopesGuard_parse.
  destruct (_ && _); [|discriminate]. by intros [= <-].
Qed.

(** *** The lookup of one indicator *)

Lemma resourceWithScopes_found queries indicator scopeNames resource :
  indicator <> ReservedResource_Organization ->
  resources_findResourceByIndicator queries indicator = Some resource ->
  resourceWithScopes queries (indicator, scopeNames)
  = Resolved {| rws_resource := ResourceRow resource;
                rws_scopes := omap (fun scopeName =>
                                      scopes_findScopeByNameAndResourceId
                                        queries scopeName (resource_id resource))
                                   scopeNames |}.
Proof.
  intros Hne Hfound. unfold resourceWithScopes.
  destruct (String.eqb_spec indicator ReservedResource_Organization) as [Heq|_]; [done|].
  rewrite Hfound. simpl. do 2 f_equal.
  induction scopeNames as [|n ns IH]; simpl; [reflexivity|].
  destruct (scopes_findScopeByNameAndResourceId queries n (resource_id resource));
    simpl; [f_equal|]; exact IH.
Qed.

Lemma resourceWithScopes_not_found queries indicator scopeNames :
  indicator <> ReservedResource_Organization ->
  resources_findResourceByIndicator queries indicator = None ->
  resourceWithScopes queries (indicator, scopeNames)
  = Rejected (InvalidTarget ("resource with indicator " +:+ indicator +:+ " not found")).
Proof.
  intros Hne Hnone. unfold resourceWithScopes.
  destruct (String.eqb_spec indicator ReservedResource_Organization) as [Heq|_]; [done|].
  by rewrite Hnone.
Qed.

Lemma resourceWithScopes_unknown_organization_scope queries scopeNames scopeName :
  In scopeName scopeNames ->
  (forall scope, In scope (organizations_scopes_findAll queries) ->
                 scope_name scope <> scopeName) ->
  exists description,
    resourceWithScopes queries (ReservedResource_Organization, scopeNames)
    = Rejected (InvalidTarget description).
Proof.
  intros Hin Hnone. unfold resourceWithScopes. rewrite String.eqb_refl.
  match goal with |- context [mapM ?f _] => set (lookup := f) end.
  assert (Hrej : lookup scopeName
                 = Rejected (InvalidTarget ("scope with name " +:+ scopeName +:+
                                            " not found for organization resource"))).
  { unfold lookup.
    destruct (List.find _ _) as [scope|] eqn:Efind; [|reflexivity].
    apply find_some in Efind as [Hmem Hname].
    apply String.eqb_eq in Hname. by destruct (Hnone scope Hmem). }
  destruct (mapM_rejects lookup scopeNames scopeName _ Hin Hrej) as (n' & e' & _ & Hn' & HM).
  rewrite HM. simpl.
  unfold lookup in Hn'. destruct (List.find _ _); [discriminate|].
  injection Hn' as <-. eauto.
Qed.

(** A lookup only ever rejects with an invalid-target error. *)
Lemma resourceWithScopes_rejection queries entry e :
  resourceWithScopes queries entry = Rejected e ->
  exists description, e = InvalidTarget description.
Proof.
  destruct entry as [indicator scopeNames]. unfold resourceWithScopes.
  destruct (indicator =? ReservedResource_Organization).
  - match goal with |- context [mapM ?f _] => set (lookup := f) end.
    destruct (mapM lookup scopeNames) as [scopes|e'] eqn:EM; simpl; [discriminate|].
    intros [= <-]. clear -EM. revert EM.
    induction scopeNames as [|n ns IH]; simpl; [discriminate|].
    destruct (lookup n) as [scope|e0] eqn:En; simpl.
    + destruct (mapM lookup ns); simpl; [discriminate|]. intros [= ->]. by apply IH.
    + intros [= <-]. unfold lookup in En.
      destruct (List.find _ _); [discriminate|]. injection En as <-. eauto.
  - destruct (resources_findResourceByIndicator queries indicator); simpl; [discriminate|].
    intros [= <-]. eauto.
Qed.

(** *** The enricher *)

(** A rejected lookup is fatal to the whole enrichment, whichever lookup
    settles first. *)
Lemma parseMissingResourceScopesInfo_rejects first queries o entry e :
  In entry (Js.entries o) ->
  resourceWithScopes queries entry = Rejected e ->
  exists description,
    parseMissingResourceScopesInfo first queries (Some o)
    = Rejected (InvalidTarget description).
Proof.
  intros Hin Hrej. unfold parseMissingResourceScopesInfo.
  assert (Hmem : In (Rejected e) (map (resourceWithScopes queries) (Js.entries o))).
  { rewrite <- Hrej. by apply in_map. }
  destruct (Promise_all_rejects first _ _ Hmem) as (e' & Hall & Hmem').
  apply in_map_iff in Hmem' as (entry' & Hrej' & _).
  apply resourceWithScopes_rejection in Hrej' as [description ->].
  rewrite Hall. simpl. eauto.
Qed.

Lemma lookups_resolved queries (es : list (string * list string)) rs :
  map (resourceWithScopes queries) es = map Resolved rs ->
  Forall2 (fun entry r => resourceWithScopes queries entry = Resolved r) es rs.
Proof.
  revert rs. induction es as [|entry es IH]; intros [|r rs]; simpl; try discriminate.
  - constructor.
  - intros [= Hr Hrs]. constructor; [exact Hr|by apply IH].
Qed.

(** When the enrichment resolves, its records are, position by position, the
    enrichments of the entries that contribute a scope. *)
Lemma parseMissingResourceScopesInfo_resolved first queries o out :
  parseMissingResourceScopesInfo first queries (Some o) = Resolved out ->
  Forall2 (enriched queries) (List.filter (contributes queries) (Js.entries o)) out.
Proof.
  unfold parseMissingResourceScopesInfo.
  destruct (Promise_all first _) as [rs|e] eqn:Hall; simpl; [|discriminate].
  apply Promise_all_Resolved, lookups_resolved in Hall.
  intros Hout. apply mapM_Resolved in Hout. revert out Hout.
  induction Hall as [|entry r es rs Hr _ IH]; intros out; simpl.
  - inversion 1. constructor.
  - unfold contributes at 1. rewrite Hr.
    destruct (0 <? length (rws_scopes r))%nat; [|by apply IH].
    inversion 1 as [|? record ? out' Hguard Hrest]; subst.
    constructor; [by exists r|by apply IH].
Qed.

(** C3: in the enricher, under the reserved organization indicator, a
    requested scope name that no existing organization scope bears makes the
    whole enrichment fail with an invalid-target error, whatever else the
    mapping holds and whichever lookup settles first. *)
Theorem unknown_organization_scope_is_fatal first queries o scopeNames scopeName :
  In (ReservedResource_Organization, scopeNames) (Js.entries o) ->
  In scopeName scopeNames ->
  (forall scope, In scope (organizations_scopes_findAll queries) ->
                 scope_name scope <> scopeName) ->
  exists description,
    parseMissingResourceScopesInfo first queries (Some o)
    = Rejected (InvalidTarget description).
Proof.
  intros Hentry Hname Hnone.
  destruct (resourceWithScopes_unknown_organization_scope queries _ _ Hname Hnone)
    as [description Hrej].
  eapply parseMissingResourceScopesInfo_rejects; [exact Hentry|exact Hrej].
Qed.

(** C6: in the enricher, an indicator other than the reserved one that names no
    existing resource makes the whole enrichment fail with an invalid-target
    error, also when every other indicator of the mapping resolves. *)
Theorem unknown_resource_is_fatal first queries o indicator scopeNames :
  In (indicator, scopeNames) (Js.entries o) ->
  indicator <> ReservedResource_Organization ->
  resources_findResourceByIndicator queries indicator = None ->
  exists description,
    parseMissingResourceScopesInfo first queries (Some o)
    = Rejected (InvalidTarget description).
Proof.
  intros Hentry Hne Hnone.
  eapply parseMissingResourceScopesInfo_rejects; [exact Hentry|].
  by apply resourceWithScopes_not_found.
Qed.

Lemma rejections_app {A} (ps qs : list (Outcome A)) :
  rejections (ps ++ qs) = rejections ps ++ rejections qs.
Proof.
  induction ps as [|[a|e] ps IH]; simpl; [reflexivity|exact IH|by rewrite IH].
Qed.

Lemma resolutions_app {A} (ps qs : list (Outcome A)) :
  resolutions (ps ++ qs) = resolutions ps ++ resolutions qs.
Proof.
  induction ps as [|[a|e] ps IH]; simpl; [reflexivity|by rewrite IH|exact IH].
Qed.

(** The enricher reads its mapping through [Object.entries] only. *)
Lemma parseMissingResourceScopesInfo_entries first queries o o' :
  map (resourceWithScopes queries) (Js.entries o)
  = map (resourceWithScopes queries) (Js.entries o') ->
  parseMissingResourceScopesInfo first queries (Some o)
  = parseMissingResourceScopesInfo first queries (Some o').
Proof. unfold parseMissingResourceScopesInfo. by intros ->. Qed.

(** An entry whose lookup finds no scope is as good as not there. *)
Lemma parseMissingResourceScopesInfo_skips first queries o o' pre entry post r :
  Js.entries o = pre ++ entry :: post ->
  Js.entries o' = pre ++ post ->
  resourceWithScopes queries entry = Resolved r ->
  rws_scopes r = [] ->
  parseMissingResourceScopesInfo first queries (Some o)
  = parseMissingResourceScopesInfo first queries (Some o').
Proof.
  intros Ho Ho' Hr Hnone. unfold parseMissingResourceScopesInfo, Promise_all.
  rewrite Ho, Ho', !map_app, map_cons, Hr, !rejections_app. cbn [rejections].
  destruct (rejections _ ++ rejections _); [|reflexivity].
  cbn [mbind Outcome_bind]. rewrite !resolutions_app. cbn [resolutions].
  rewrite !List.filter_app. cbn [List.filter]. by rewrite Hnone.
Qed.

Lemma omap_step {A B} (f : A -> option B) (x : A) (l : list A) :
  omap f (x :: l) = match f x with Some y => y :: omap f l | None => omap f l end.
Proof. reflexivity. Qed.

Lemma omap_resolving {A B} (f : A -> option B) (l : list A) :
  omap f (List.filter (fun x => match f x with Some _ => true | None => false end) l)
  = omap f l.
Proof.
  induction l as [|x l IH]; [reflexivity|].
  cbn [List.filter]. rewrite (omap_step f x l).
  destruct (f x) as [y|] eqn:Hx; [|exact IH].
  by rewrite omap_step, Hx, IH.
Qed.

Lemma omap_none_resolving {A B} (f : A -> option B) (l : list A) :
  (forall x, In x l -> f x = None) -> omap f l = [].
Proof.
  induction l as [|x l IH]; [reflexivity|]. intros Hnone.
  rewrite omap_step, (Hnone x) by by left. apply IH. intros y Hy. apply Hnone. by right.
Qed.

(** C4: for an indicator, other than the reserved one, of an existing resource
    the lookup always resolves, whatever names fail to resolve on the resource,
    with exactly the scopes that resolved.  The names that do not resolve are
    silent: the enricher answers as it does for the mapping in which only the
    resolving names are requested, and, when no name resolves, as it does for
    the mapping without the indicator.  And whenever the enricher returns,
    every record has a non-empty scopes list, the records are exactly the
    enrichments of the contributing entries, the record of such an indicator
    holds the scopes that resolved and nothing for the names that did not, and
    when no name resolves no record stands for it. *)
Theorem unresolved_scopes_are_dropped first queries :
  (forall indicator scopeNames resource,
     indicator <> ReservedResource_Organization ->
     resources_findResourceByIndicator queries indicator = Some resource ->
     let resolve scopeName :=
       scopes_findScopeByNameAndResourceId queries scopeName (resource_id resource) in
     resourceWithScopes queries (indicator, scopeNames)
     = Resolved {| rws_resource := ResourceRow resource;
                   rws_scopes := omap resolve scopeNames |} /\
     forall o o' pre post,
       Js.entries o = pre ++ (indicator, scopeNames) :: post ->
       (Js.entries o'
        = pre ++ (indicator,
                  List.filter (fun scopeName => match resolve scopeName with
                                                | Some _ => true
                                                | None => false
                                                end) scopeNames) :: post ->
        parseMissingResourceScopesInfo first queries (Some o)
        = parseMissingResourceScopesInfo first queries (Some o')) /\
       ((forall scopeName, In scopeName scopeNames -> resolve scopeName = None) ->
        Js.entries o' = pre ++ post ->
        parseMissingResourceScopesInfo first queries (Some o)
        = parseMissingResourceScopesInfo first queries (Some o'))) /\
  (forall o out,
     parseMissingResourceScopesInfo first queries (Some o) = Resolved out ->
     Forall (fun record => mrs_scopes record <> []) out /\
     Forall2 (enriched queries) (List.filter (contributes queries) (Js.entries o)) out /\
     forall indicator scopeNames resource,
       In (indicator, scopeNames) (Js.entries o) ->
       indicator <> ReservedResource_Organization ->
       resources_findResourceByIndicator queries indicator = Some resource ->
       let resolve scopeName :=
         scopes_findScopeByNameAndResourceId queries scopeName (resource_id resource) in
       (forall record, enriched queries (indicator, scopeNames) record ->
          mrs_scopes record = omap resolve scopeNames /\
          forall scope, In scope (mrs_scopes record) <->
                        exists scopeName, In scopeName scopeNames /\
                                          resolve scopeName = Some scope) /\
       ((forall scopeName, In scopeName scopeNames -> resolve scopeName = None) ->
        contributes queries (indicator, scopeNames) = false /\
        ~ In (indicator, scopeNames) (List.filter (contributes queries) (Js.entries o)))).
Proof.
  split.
  { intros indicator scopeNames resource Hne Hfound resolve.
    pose proof (resourceWithScopes_found queries _ scopeNames _ Hne Hfound) as Hlookup.
    fold resolve in Hlookup. split; [exact Hlookup|].
    intros o o' pre post Ho. split.
    - intros Ho'. apply parseMissingResourceScopesInfo_entries.
      rewrite Ho, Ho', !map_app, !map_cons. do 2 f_equal.
      rewrite Hlookup, (resourceWithScopes_found queries _ _ _ Hne Hfound).
      fold resolve. by rewrite (omap_resolving resolve).
    - intros Hnone Ho'.
      eapply parseMissingResourceScopesInfo_skips; [exact Ho|exact Ho'|exact Hlookup|].
      simpl. by apply omap_none_resolving. }
  intros o out.
  intros Hout. pose proof (parseMissingResourceScopesInfo_resolved _ _ _ _ Hout) as Hall.
  split; [|split; [exact Hall|]].
  - eapply Forall2_Forall_r; [exact Hall|].
    apply List.Forall_forall. intros entry Hin record (r & Hr & Hguard).
    apply filter_In in Hin as [_ Hc]. unfold contributes in Hc. rewrite Hr in Hc.
    apply missingResourceScopesGuard_parse_fields in Hguard as (_ & _ & ->).
    destruct (rws_scopes r); [discriminate|done].
  - intros indicator scopeNames resource Hentry Hne Hfound resolve.
    pose proof (resourceWithScopes_found queries _ scopeNames _ Hne Hfound) as Hlookup.
    fold resolve in Hlookup. split.
    + intros record (r & Hr & Hguard). rewrite Hlookup in Hr. injection Hr as <-.
      apply missingResourceScopesGuard_parse_fields in Hguard as (_ & _ & ->). simpl.
      split; [reflexivity|]. intros scope.
      rewrite <- list_elem_of_In, list_elem_of_omap.
      setoid_rewrite list_elem_of_In. reflexivity.
    + intros Hnone.
      assert (Hc : contributes queries (indicator, scopeNames) = false).
      { unfold contributes. rewrite Hlookup. simpl.
        by rewrite (omap_none_resolving resolve). }
      split; [exact Hc|]. intros Hin. apply filter_In in Hin as [_ Hin]. congruence.
Qed.

(** C9: the enricher's output follows the iteration order of the input mapping:
    the records are, position by position, the enrichments of the contributing
    entries, taken in the order of [Object.entries] of the mapping, whichever
    lookup completes first. *)
Theorem output_follows_mapping_order first queries o out :
  parseMissingResourceScopesInfo first queries (Some o) = Resolved out ->
  let kept := List.filter (contributes queries) (Js.entries o) in
  sublist kept (Js.entries o) /\ Forall2 (enriched queries) kept out.
Proof.
  intros Hout kept.
  split; [|by eapply parseMissingResourceScopesInfo_resolved].
  unfold kept. clear. induction (Js.entries o) as [|entry es IH]; simpl; [constructor|].
  destruct (contributes queries entry); by constructor.
Qed.

(** C7: with the dev features disabled the filter step changes nothing: the
    filtered mapping has the entries of the input mapping, indicator by
    indicator and in the same order, so the enricher runs on the raw names. *)
Theorem filter_skipped_when_disabled first o queries userId organizationId :
  isDevFeaturesEnabled EnvSet_values = false ->
  Js.wf o ->
  Js.entries (filteredResourceScopes o queries userId organizationId) = Js.entries o /\
  filterAndParseMissingResourceScopes first o queries userId organizationId
  = parseMissingResourceScopesInfo first queries (Some o).
Proof.
  intros Hflag Hwf.
  assert (Hsame : Js.entries (filteredResourceScopes o queries userId organizationId)
                  = Js.entries o).
  { unfold filteredResourceScopes. rewrite Hflag. simpl.
    rewrite (map_ext _ id), map_id by by intros [].
    by apply Js_entries_roundtrip. }
  split; [exact Hsame|].
  unfold filterAndParseMissingResourceScopes, parseMissingResourceScopesInfo.
  by rewrite Hsame.
Qed.

(** *** The write path *)

Lemma validate_members queries userId ids log :
  (forall id, In id ids -> is_member queries userId id) ->
  validateUserConsentOrganizationMembership queries userId ids log
  = (Resolved tt, log ++ [ValidateMembership userId ids]).
Proof.
  intros Hall. unfold validateUserConsentOrganizationMembership.
  replace (forallb _ ids) with true; [reflexivity|].
  symmetry. apply forallb_forall. intros id Hin.
  destruct (Hall id Hin) as (organization & Hmem & Hid).
  apply existsb_exists. exists organization. split; [exact Hmem|].
  by apply String.eqb_eq.
Qed.

Lemma validate_stranger queries userId ids log id :
  In id ids -> ~ is_member queries userId id ->
  validateUserConsentOrganizationMembership queries userId ids log
  = (Rejected NotAMember, log ++ [ValidateMembership userId ids]).
Proof.
  intros Hin Hnot. unfold validateUserConsentOrganizationMembership.
  destruct (forallb _ ids) eqn:Hall; [|reflexivity].
  destruct Hnot. rewrite forallb_forall in Hall.
  apply Hall, existsb_exists in Hin as (organization & Hmem & Hid).
  exists organization. split; [exact Hmem|]. by apply String.eqb_eq.
Qed.

Lemma persisted_app (log1 log2 : list (Call Prompt)) :
  persisted (log1 ++ log2) = persisted log1 ++ persisted log2.
Proof. unfold persisted. by rewrite flat_map_app. Qed.

Lemma finalized_app (log1 log2 : list (Call Prompt)) :
  finalized (log1 ++ log2) = finalized log1 ++ finalized log2.
Proof. unfold finalized. by rewrite flat_map_app. Qed.

(** The write path once the session and the client are there: validation, then
    the batch, then the provider. *)
Lemma post_consent_granting queries interactionDetails body log ids session0 applicationId :
  organizationIds body = Some ids -> ids <> [] ->
  session interactionDetails = Some session0 ->
  client_id (params interactionDetails) = Js.Str applicationId -> applicationId <> "" ->
  post_consent queries interactionDetails body log
  = match validateUserConsentOrganizationMembership queries (accountId session0) ids log with
    | (Resolved _, log1) =>
        let rows := map (fun id => (applicationId, accountId session0, id)) ids in
        let log2 := log1 ++ [InsertUserConsentOrganizations rows] in
        (respond (consent_result log2 interactionDetails),
         log2 ++ [Consent interactionDetails])
    | (Rejected e, log1) => (Rejected e, log1)
    end.
Proof.
  intros Hbody Hne Hsession Hclient Hname.
  unfold post_consent. rewrite Hbody.
  destruct ids as [|id ids]; [done|]. cbn [has_length].
  unfold mbind, Routine_bind, lift. rewrite Hsession, Hclient. cbn [assertThat].
  cbn [Js.truthy Js.typeof_string Js.as_string].
  apply String.eqb_neq in Hname. rewrite Hname. cbn [negb andb assertTrue assertThat].
  destruct (validateUserConsentOrganizationMembership _ _ _ log) as [[[]|e] log1];
    [|reflexivity].
  unfold userConsentOrganizations_insert, consent, respond, mret, Routine_ret.
  destruct (consent_result _ interactionDetails); reflexivity.
Qed.

(** C1, amended: for a request that carries a session and a non-empty string
    client id, and whose organizationIds hold an organization the user is not
    a member of, the request fails with the membership error after the
    validation call alone: no grant tuple is handed to storage and the
    interaction is not handed to the provider. *)
Theorem stranger_organization_fails_without_grants
    queries interactionDetails body log ids session0 applicationId id :
  organizationIds body = Some ids ->
  session interactionDetails = Some session0 ->
  client_id (params interactionDetails) = Js.Str applicationId -> applicationId <> "" ->
  In id ids -> ~ is_member queries (accountId session0) id ->
  let result := post_consent queries interactionDetails body log in
  result = (Rejected NotAMember, log ++ [ValidateMembership (accountId session0) ids]) /\
  persisted (snd result) = persisted log /\
  finalized (snd result) = finalized log.
Proof.
  intros Hbody Hsession Hclient Hname Hin Hnot result.
  assert (Hresult : result = (Rejected NotAMember,
                              log ++ [ValidateMembership (accountId session0) ids])).
  { unfold result.
    rewrite (post_consent_granting _ _ _ _ ids session0 applicationId) by
      (try done; by intros ->).
    by rewrite (validate_stranger _ _ _ _ id). }
  split; [exact Hresult|]. rewrite Hresult. cbn [snd].
  rewrite persisted_app, finalized_app. simpl. by rewrite !app_nil_r.
Qed.

(** Validation is reached only past the two assertions, and for the user of
    the session. *)
Lemma validates_inv queries interactionDetails body log userId ids0 ids :
  organizationIds body = Some ids ->
  validates queries interactionDetails body log userId ids0 ->
  ids0 = ids /\
  exists applicationId,
    session interactionDetails = Some {| accountId := userId |} /\
    client_id (params interactionDetails) = Js.Str applicationId /\
    applicationId <> "".
Proof.
  intros Hbody [rest Hrun].
  assert (Hstuck : forall calls : list (Call Prompt),
            log = log ++ ValidateMembership userId ids0 :: calls -> False).
  { intros calls H. apply (f_equal length) in H. rewrite length_app in H. simpl in H. lia. }
  unfold post_consent in Hrun. rewrite Hbody in Hrun.
  destruct ids as [|id ids].
  { unfold mbind, Routine_bind, mret, Routine_ret, consent in Hrun. cbn in Hrun.
    destruct (consent_result log interactionDetails); cbn in Hrun;
      apply app_inv_head in Hrun; discriminate. }
  cbn [has_length] in Hrun. unfold mbind, Routine_bind, lift in Hrun.
  destruct (session interactionDetails) as [[user]|] eqn:Hsession;
    cbn [assertThat] in Hrun; [|destruct (Hstuck _ Hrun)].
  destruct (client_id (params interactionDetails)) as [| |b|z|applicationId|] eqn:Hclient;
    cbn [Js.truthy Js.typeof_string andb assertTrue assertThat] in Hrun;
    try rewrite andb_false_r in Hrun; try solve [destruct (Hstuck _ Hrun)].
  destruct (String.eqb_spec applicationId "") as [->|Hname];
    cbn [negb andb] in Hrun; [destruct (Hstuck _ Hrun)|].
  assert (Hcall : exists rest', log ++ ValidateMembership user (id :: ids) :: rest'
                                = log ++ ValidateMembership userId ids0 :: rest).
  { revert Hrun. unfold validateUserConsentOrganizationMembership.
    destruct (assertTrue _ NotAMember) as [[]|e]; cbn.
    - unfold userConsentOrganizations_insert, consent, mret, Routine_ret; cbn.
      destruct (consent_result _ interactionDetails); cbn;
        rewrite <- !app_assoc; cbn; eauto.
    - eauto. }
  destruct Hcall as [rest' Hcall]. apply app_inv_head in Hcall.
  injection Hcall as -> -> _. eauto.
Qed.

(** C2, amended: for a request that carries a session and a non-empty string
    client id, with a non-empty organizationIds list for which the membership
    validation of the session's user succeeds, the handler hands storage one
    batch holding one tuple (applicationId, userId, organizationId) per
    supplied id, in order, then asks the provider to finalize and answers with
    the provider's redirect target. *)
Theorem validated_organizations_are_granted
    queries interactionDetails body log ids session0 applicationId :
  organizationIds body = Some ids -> ids <> [] ->
  session interactionDetails = Some session0 ->
  client_id (params interactionDetails) = Js.Str applicationId -> applicationId <> "" ->
  fst (validateUserConsentOrganizationMembership queries (accountId session0) ids log)
  = Resolved tt ->
  let userId := accountId session0 in
  let rows := map (fun id => (applicationId, userId, id)) ids in
  let granted := log ++ [ValidateMembership userId ids;
                         InsertUserConsentOrganizations rows] in
  let result := post_consent queries interactionDetails body log in
  result = (respond (consent_result granted interactionDetails),
            granted ++ [Consent interactionDetails]) /\
  persisted (snd result) = persisted log ++ rows /\
  length rows = length ids /\
  forall target, consent_result granted interactionDetails = Resolved target ->
                 fst result = Resolved {| redirectTo := target |}.
Proof.
  intros Hbody Hne Hsession Hclient Hname Hvalid userId rows granted result.
  assert (Hresult : result = (respond (consent_result granted interactionDetails),
                              granted ++ [Consent interactionDetails])).
  { unfold result.
    rewrite (post_consent_granting _ _ _ _ ids session0 applicationId) by done.
    unfold validateUserConsentOrganizationMembership in *. cbn [fst] in Hvalid.
    rewrite Hvalid. cbn zeta. unfold granted, rows, userId. by rewrite <- !app_assoc. }
  split; [exact Hresult|]. rewrite Hresult. cbn [fst snd]. split; [|split].
  - unfold granted. rewrite !persisted_app. simpl. by rewrite !app_nil_r.
  - unfold rows. by rewrite length_map.
  - by intros target ->.
Qed.

(** C10: when organizationIds is absent or empty the handler asserts nothing
    about the session or the client, validates nothing and inserts nothing: its
    only call is the provider's consent, and its answer is the provider's,
    whatever the interaction details are. *)
Theorem no_organizations_only_finalizes queries interactionDetails body log :
  organizationIds body = None \/ organizationIds body = Some [] ->
  post_consent queries interactionDetails body log
  = (respond (consent_result log interactionDetails), log ++ [Consent interactionDetails]).
Proof.
  intros Hbody. unfold post_consent.
  assert (Hnone : has_length (organizationIds body) = None)
    by (destruct Hbody as [-> | ->]; reflexivity).
  rewrite Hnone. unfold mbind, Routine_bind, mret, Routine_ret, consent, respond.
  destruct (consent_result log interactionDetails); reflexivity.
Qed.

(** *** The read path *)

(** Peels the awaited steps off a handler that resolved. *)
Ltac resolved_steps H :=
  repeat match type of H with
         | mbind _ ?m = Resolved _ =>
             let E := fresh "Estep" in
             destruct m eqn:E; cbn [mbind Outcome_bind] in H; [|discriminate H]
         end.

Lemma organization_infos (f : Organization -> Outcome OrganizationInfo) orgs infos :
  (forall organization info,
     f organization = Resolved info ->
     oi_id info = organization_id organization /\
     oi_name info = organization_name organization) ->
  map f orgs = map Resolved infos ->
  Forall2 (fun organization info =>
             oi_id info = organization_id organization /\
             oi_name info = organization_name organization) orgs infos.
Proof.
  intros Hf. revert infos.
  induction orgs as [|organization orgs IH]; intros [|info infos]; simpl; try discriminate.
  - constructor.
  - intros [= Hinfo Hrest]. constructor; [by apply Hf|by apply IH].
Qed.

(** What a response of the read path is made of. *)
Lemma get_consent_resolved timing queries interactionDetails response :
  get_consent timing queries interactionDetails = Resolved response ->
  exists missingOIDCScope allMissingResourceScopes organizations,
    getMissingScopes (prompt interactionDetails)
    = Resolved (missingOIDCScope, allMissingResourceScopes) /\
    Forall2 (fun organization info =>
               oi_id info = organization_id organization /\
               oi_name info = organization_name organization)
            organizations (cir_organizations response) /\
    (includes missingOIDCScope UserScope_Organizations = false -> organizations = []) /\
    cir_missingOIDCScope response
    = List.filter (fun scope => negb (scope =? "openid") && negb (scope =? "offline_access"))
        <$> missingOIDCScope.
Proof.
  unfold get_consent. intros H. resolved_steps H.
  destruct (applicationSignInExperiences_safeFindSignInExperienceByApplicationId _ _);
    cbn [mbind Outcome_bind] in H.
  all: resolved_steps H.
  all: match goal with
       | E : getMissingScopes _ = Resolved ?p |- _ =>
           destruct p as [missingOIDCScope all]; cbn [fst snd] in *
       end.
  all: match goal with
       | E : Promise_all _ (map _ ?orgs) = Resolved ?infos |- _ =>
           exists missingOIDCScope, all, orgs;
           apply Promise_all_Resolved, organization_infos in E
       end.
  all: try (injection H as <-; cbn [cir_organizations cir_missingOIDCScope];
            split; [reflexivity|]; split; [assumption|]; split; [|reflexivity];
            by intros ->).
  all: intros organization info; unfold mret, Outcome_ret.
  all: destruct (negb _); [intros E; injection E as E; by subst info|].
  all: match goal with |- mbind _ ?m = _ -> _ => destruct m end;
    cbn [mbind Outcome_bind]; [intros E; injection E as E; by subst info|discriminate].
Qed.

(** A read request that gets as far as the global enrichment fails as the
    enrichment fails. *)
Lemma get_consent_enrichment_rejects
    timing queries interactionDetails session0 clientId redirectUri application userInfo
    missingOIDCScope allMissingResourceScopes e :
  session interactionDetails = Some session0 ->
  client_id (params interactionDetails) = Js.Str clientId -> clientId <> "" ->
  redirect_uri (params interactionDetails) = Js.Str redirectUri -> redirectUri <> "" ->
  applications_findApplicationById queries clientId = Resolved application ->
  users_findUserById queries (accountId session0) = Resolved userInfo ->
  getMissingScopes (prompt interactionDetails)
  = Resolved (missingOIDCScope, allMissingResourceScopes) ->
  filterAndParseMissingResourceScopes (settle_global timing)
    (default [] allMissingResourceScopes) queries (accountId session0) None
  = Rejected e ->
  get_consent timing queries interactionDetails = Rejected e.
Proof.
  intros Hsession Hclient Hc Hredirect Hr Happ Huser Hmissing Hrej.
  unfold get_consent. rewrite Hsession, Hclient, Hredirect.
  cbn [assertThat Js.truthy Js.typeof_string Js.as_string mbind Outcome_bind].
  apply String.eqb_neq in Hc, Hr. rewrite Hc, Hr.
  cbn [negb andb assertTrue assertThat mbind Outcome_bind].
  rewrite Happ. cbn [mbind Outcome_bind]. rewrite Huser. cbn [mbind Outcome_bind].
  rewrite Hmissing. cbn [mbind Outcome_bind fst snd]. by rewrite Hrej.
Qed.

(** C5: whatever the prompt reports, a response of the read route never lists
    [openid] or [offline_access] in missingOIDCScope. *)
Theorem reserved_oidc_scopes_never_surface timing queries interactionDetails response scopes :
  get_consent timing queries interactionDetails = Resolved response ->
  cir_missingOIDCScope response = Some scopes ->
  ~ In "openid" scopes /\ ~ In "offline_access" scopes.
Proof.
  intros Hget Hscopes.
  destruct (get_consent_resolved _ _ _ _ Hget) as (oidc & _ & _ & _ & _ & _ & Hfilter).
  rewrite Hfilter in Hscopes. destruct oidc as [raw|]; [|discriminate].
  injection Hscopes as <-.
  split; intros Hin; apply filter_In in Hin as [_ Hkeep]; discriminate.
Qed.

(** C8: when the missing OIDC scopes do not include the organizations scope,
    the organizations of the response are the empty list, whatever
    organizations the user belongs to. *)
Theorem organizations_need_the_scope
    timing queries interactionDetails response missingOIDCScope allMissingResourceScopes :
  getMissingScopes (prompt interactionDetails)
  = Resolved (missingOIDCScope, allMissingResourceScopes) ->
  (forall scopes, missingOIDCScope = Some scopes -> ~ In UserScope_Organizations scopes) ->
  get_consent timing queries interactionDetails = Resolved response ->
  cir_organizations response = [].
Proof.
  intros Hmissing Hnot Hget.
  destruct (get_consent_resolved _ _ _ _ Hget)
    as (oidc & all & orgs & Hmissing' & Hinfos & Hempty & _).
  rewrite Hmissing in Hmissing'. injection Hmissing' as <- <-.
  rewrite Hempty in Hinfos; [by inversion Hinfos|].
  unfold includes. destruct missingOIDCScope as [scopes|]; [|reflexivity].
  destruct (existsb _ scopes) eqn:Hex; [|reflexivity].
  apply existsb_exists in Hex as (scope & Hin & Heq).
  apply String.eqb_eq in Heq. subst scope. by destruct (Hnot scopes).
Qed.

(** *** More on the enricher *)

Lemma Promise_all_any_order {A} first first' (ps : list (Outcome A)) vs :
  Promise_all first ps = Resolved vs -> Promise_all first' ps = Resolved vs.
Proof.
  unfold Promise_all. by destruct (rejections ps).
Qed.



(** X1: completion order never changes whether the enricher succeeds nor what
    it returns: a result obtained under one order is the result under every
    order. *)
Theorem enrichment_does_not_depend_on_completion_order first first' queries mapping out :
  parseMissingResourceScopesInfo first queries mapping = Resolved out ->
  parseMissingResourceScopesInfo first' queries mapping = Resolved out.
Proof.
  destruct mapping as [o|]; [|done]. unfold parseMissingResourceScopesInfo.
  destruct (Promise_all first _) as [rs|e] eqn:Hall; simpl; [|discriminate].
  by rewrite (Promise_all_any_order _ first' _ _ Hall).
Qed.


(** X3: the enricher returns nothing for an absent mapping, and at most one
    record per indicator of a mapping. *)
Theorem enrichment_is_bounded first queries :
  parseMissingResourceScopesInfo first queries None = Resolved [] /\
  forall o out,
    parseMissingResourceScopesInfo first queries (Some o) = Resolved out ->
    (length out <= length (Js.keys o))%nat.
Proof.
  split; [reflexivity|]. intros o out Hout.
  apply parseMissingResourceScopesInfo_resolved, Forall2_length in Hout.
  rewrite <- Hout. unfold Js.keys. rewrite length_map.
  rewrite <- (Permutation_length (Js_entries_perm o)).
  apply List.filter_length_le.
Qed.

(** X4: the record of the reserved organization indicator bears the indicator
    as its id and as its name, and lists one organization scope per requested
    name, in the order of the request and under the requested names. *)
Theorem organization_record queries scopeNames record :
  enriched queries (ReservedResource_Organization, scopeNames) record ->
  mrs_resource_id record = ReservedResource_Organization /\
  mrs_resource_name record = ReservedResource_Organization /\
  map scope_name (mrs_scopes record) = scopeNames /\
  Forall (fun scope => In scope (organizations_scopes_findAll queries)) (mrs_scopes record).
Proof.
  intros (r & Hr & Hguard).
  apply missingResourceScopesGuard_parse_fields in Hguard as (-> & -> & ->).
  unfold resourceWithScopes in Hr. rewrite String.eqb_refl in Hr.
  match type of Hr with context [mapM ?f _] => set (lookup := f) in Hr end.
  destruct (mapM lookup scopeNames) as [scopes|e] eqn:HM; simpl in Hr; [|discriminate].
  injection Hr as <-. simpl. split; [reflexivity|]. split; [reflexivity|].
  apply mapM_Resolved in HM.
  induction HM as [|n scope ns scopes Hn _ [IHn IHs]]; simpl; [by split|].
  unfold lookup in Hn. destruct (List.find _ _) as [found|] eqn:Hfind; [|discriminate].
  injection Hn as ->. apply find_some in Hfind as [Hmem Hname].
  apply String.eqb_eq in Hname. split; [by rewrite Hname, IHn|by constructor].
Qed.

(** *** The filter step *)

Section JsValues.
Context {V W : Type} (g : string -> V -> W).

Local Abbreviation on_values := (JsMap.on_values g).
Local Abbreviation on_tagged := (JsMap.on_tagged g).

Lemma Js_insert_sorted_values x t :
  Js.insert_sorted (on_tagged x) (map on_tagged t) = map on_tagged (Js.insert_sorted x t).
Proof.
  induction t as [|y t IH]; simpl; [reflexivity|].
  destruct (fst x <=? fst y)%N; simpl; [reflexivity|]. by rewrite IH.
Qed.

Lemma Js_sort_by_index_values t :
  Js.sort_by_index (map on_tagged t) = map on_tagged (Js.sort_by_index t).
Proof.
  induction t as [|x t IH]; [reflexivity|].
  change (Js.insert_sorted (on_tagged x) (Js.sort_by_index (map on_tagged t))
          = map on_tagged (Js.insert_sorted x (Js.sort_by_index t))).
  rewrite IH. apply Js_insert_sorted_values.
Qed.

(** Changing the values of the properties changes neither which properties
    are enumerated nor their order. *)
Lemma Js_entries_values (l : list (string * V)) :
  Js.entries (map on_values l) = map on_values (Js.entries l).
Proof.
  unfold Js.entries. rewrite map_app. f_equal.
  - assert (Htag : omap Js.tag_index (map on_values l)
                   = map on_tagged (omap Js.tag_index l)).
    { induction l as [|p l IH]; [reflexivity|]. rewrite map_cons.
      change (omap Js.tag_index (on_values p :: map on_values l))
        with (match Js.tag_index (on_values p) with
              | Some y => y :: omap Js.tag_index (map on_values l)
              | None => omap Js.tag_index (map on_values l)
              end).
      change (omap Js.tag_index (p :: l))
        with (match Js.tag_index p with
              | Some y => y :: omap Js.tag_index l
              | None => omap Js.tag_index l
              end).
      rewrite IH. unfold Js.tag_index, JsMap.on_tagged, JsMap.on_values. simpl.
      by destruct (Js.array_index (fst p)). }
    rewrite Htag, Js_sort_by_index_values, !map_map. reflexivity.
  - induction l as [|p l IH]; [reflexivity|].
    rewrite map_cons.
    change (List.filter Js.is_string_key (on_values p :: map on_values l))
      with (if Js.is_string_key (on_values p)
            then on_values p :: List.filter Js.is_string_key (map on_values l)
            else List.filter Js.is_string_key (map on_values l)).
    change (List.filter Js.is_string_key (p :: l))
      with (if Js.is_string_key p
            then p :: List.filter Js.is_string_key l
            else List.filter Js.is_string_key l).
    rewrite IH. unfold Js.is_string_key, JsMap.on_values. simpl.
    by destruct (Js.array_index (fst p)).
Qed.

Lemma Js_keys_values (l : list (string * V)) :
  Js.keys (map on_values l) = Js.keys l.
Proof. unfold Js.keys. rewrite map_map. reflexivity. Qed.

End JsValues.

(** The names the filter step keeps for an indicator. *)
Lemma filteredResourceScopes_entries o queries userId organizationId :
  Js.wf o ->
  Js.entries (filteredResourceScopes o queries userId organizationId)
  = map (fun entry =>
           (fst entry,
            if isDevFeaturesEnabled EnvSet_values
            then List.filter
                   (fun scope =>
                      existsb (fun s => scope_name s =? scope)
                              (findResourceScopes queries (fst entry) userId
                                 (Js.Boolean_of organizationId) organizationId))
                   (snd entry)
            else snd entry))
        (Js.entries o).
Proof.
  intros Hwf.
  set (g := fun (indicator : string) (names : list string) =>
              if isDevFeaturesEnabled EnvSet_values
              then List.filter
                     (fun scope =>
                        existsb (fun s => scope_name s =? scope)
                                (findResourceScopes queries indicator userId
                                   (Js.Boolean_of organizationId) organizationId))
                     names
              else names).
  assert (Hfiltered : filteredResourceScopes o queries userId organizationId
                      = map (JsMap.on_values g) (Js.entries o)).
  { unfold filteredResourceScopes. rewrite Js_fromEntries_wf.
    - apply map_ext. intros [indicator names]. unfold g. simpl.
      by destruct (isDevFeaturesEnabled EnvSet_values).
    - unfold Js.wf. rewrite (map_ext _ (JsMap.on_values g)).
      + rewrite Js_keys_values. by apply Js_entries_wf.
      + intros [indicator names]. unfold g. simpl.
        by destruct (isDevFeaturesEnabled EnvSet_values). }
  by rewrite Hfiltered, Js_entries_values, Js_entries_idem.
Qed.

Lemma filterAndParse_unknown_resource
    first o queries userId organizationId indicator scopeNames :
  Js.wf o ->
  In (indicator, scopeNames) (Js.entries o) ->
  indicator <> ReservedResource_Organization ->
  resources_findResourceByIndicator queries indicator = None ->
  exists description,
    filterAndParseMissingResourceScopes first o queries userId organizationId
    = Rejected (InvalidTarget description).
Proof.
  intros Hwf Hin Hne Hnone. unfold filterAndParseMissingResourceScopes.
  eapply parseMissingResourceScopesInfo_rejects.
  - rewrite (filteredResourceScopes_entries o queries userId organizationId Hwf).
    apply in_map_iff. exists (indicator, scopeNames). split; [reflexivity|].
    exact Hin.
  - cbn [fst]. by apply resourceWithScopes_not_found.
Qed.

(** X5: the filter step never adds, drops or reorders an indicator: the
    filtered mapping lists the indicators of the input mapping in the same
    order; with the dev features disabled each keeps its names, and with them
    enabled each keeps, in order, the names that [findResourceScopes] grants
    the user, possibly none. *)
Theorem filter_keeps_indicators o queries userId organizationId :
  Js.wf o ->
  Js.entries (filteredResourceScopes o queries userId organizationId)
  = map (fun entry =>
           (fst entry,
            if isDevFeaturesEnabled EnvSet_values
            then List.filter
                   (fun scope =>
                      existsb (fun s => scope_name s =? scope)
                              (findResourceScopes queries (fst entry) userId
                                 (Js.Boolean_of organizationId) organizationId))
                   (snd entry)
            else snd entry))
        (Js.entries o) /\
  Js.keys (Js.entries (filteredResourceScopes o queries userId organizationId))
  = Js.keys (Js.entries o).
Proof.
  intros Hwf.
  pose proof (filteredResourceScopes_entries o queries userId organizationId Hwf) as H.
  split; [exact H|]. rewrite H. unfold Js.keys. rewrite map_map. reflexivity.
Qed.

(** X6: filtering never rescues an unknown resource: whatever the dev features
    flag and whatever scopes the user is granted, an indicator of the raw
    mapping that is not the reserved one and names no resource makes
    [filterAndParseMissingResourceScopes] fail with an invalid-target error. *)
Theorem filter_does_not_hide_unknown_resource
    first o queries userId organizationId indicator scopeNames :
  Js.wf o ->
  In (indicator, scopeNames) (Js.entries o) ->
  indicator <> ReservedResource_Organization ->
  resources_findResourceByIndicator queries indicator = None ->
  exists description,
    filterAndParseMissingResourceScopes first o queries userId organizationId
    = Rejected (InvalidTarget description).
Proof. apply filterAndParse_unknown_resource. Qed.

(** *** More on the read path *)

Lemma nonempty_string v :
  Js.truthy v && Js.typeof_string v = true -> exists x, v = Js.Str x /\ x <> "".
Proof.
  destruct v as [| |b|z|x|]; simpl; rewrite ?andb_false_r; try discriminate.
  rewrite andb_true_r. intros Hx. exists x. split; [reflexivity|].
  intros ->. discriminate.
Qed.

(** Everything a response of the read path rests on. *)
Lemma get_consent_inv timing queries interactionDetails response :
  get_consent timing queries interactionDetails = Resolved response ->
  exists session0 clientId redirectUri missingOIDCScope allMissingResourceScopes,
    session interactionDetails = Some session0 /\
    client_id (params interactionDetails) = Js.Str clientId /\ clientId <> "" /\
    redirect_uri (params interactionDetails) = Js.Str redirectUri /\ redirectUri <> "" /\
    getMissingScopes (prompt interactionDetails)
    = Resolved (missingOIDCScope, allMissingResourceScopes) /\
    filterAndParseMissingResourceScopes (settle_global timing)
      (default [] allMissingResourceScopes) queries (accountId session0) None
    = Resolved (cir_missingResourceScopes response) /\
    map (fun organization =>
           if negb (isDevFeaturesEnabled EnvSet_values)
           then mret {| oi_name := organization_name organization;
                        oi_id := organization_id organization;
                        oi_missingResourceScopes := None |}
           else
             missingResourceScopes ←
               filterAndParseMissingResourceScopes (settle_organization timing organization)
                 (default [] allMissingResourceScopes) queries (accountId session0)
                 (Some (organization_id organization));
             mret {| oi_name := organization_name organization;
                     oi_id := organization_id organization;
                     oi_missingResourceScopes := Some missingResourceScopes |})
        (if includes missingOIDCScope UserScope_Organizations
         then organizations_relations_users_getOrganizationsByUserId queries
                (accountId session0)
         else [])
    = map Resolved (cir_organizations response) /\
    cir_redirectUri response = redirectUri.
Proof.
  unfold get_consent. intros H.
  destruct (session interactionDetails) as [session0|] eqn:Hsession;
    cbn [assertThat mbind Outcome_bind] in H; [|discriminate].
  destruct (Js.truthy (client_id _) && _) eqn:Hclient;
    cbn [assertTrue assertThat mbind Outcome_bind] in H; [|discriminate].
  destruct (Js.truthy (redirect_uri _) && _) eqn:Hredirect;
    cbn [assertTrue assertThat mbind Outcome_bind] in H; [|discriminate].
  apply nonempty_string in Hclient as (clientId & Hclient & Hc).
  apply nonempty_string in Hredirect as (redirectUri & Hredirect & Hr).
  rewrite Hclient, Hredirect in H. cbn [Js.as_string] in H.
  resolved_steps H.
  destruct (applicationSignInExperiences_safeFindSignInExperienceByApplicationId _ _);
    cbn [mbind Outcome_bind] in H.
  all: resolved_steps H.
  all: match goal with
       | E : getMissingScopes _ = Resolved ?p |- _ =>
           destruct p as [missingOIDCScope all]; cbn [fst snd] in *
       end.
  all: exists session0, clientId, redirectUri, missingOIDCScope, all.
  all: injection H as <-; cbn [cir_missingResourceScopes cir_organizations cir_redirectUri].
  all: match goal with
       | E : Promise_all _ _ = Resolved _ |- _ => apply Promise_all_Resolved in E
       end.
  all: repeat (split; [first [reflexivity|assumption]|]); reflexivity.
Qed.

(** X7: the read route checks its preconditions in a fixed order, before any
    lookup: without a session it fails with [session.not_found]; with a session
    but no non-empty string client id, with an invalid-client error; with both
    but no non-empty string redirect uri, with an invalid-redirect-uri error. *)
Theorem get_consent_preconditions timing queries interactionDetails :
  let clientId := client_id (params interactionDetails) in
  let redirectUri := redirect_uri (params interactionDetails) in
  (session interactionDetails = None ->
   get_consent timing queries interactionDetails
   = Rejected (RequestError "session.not_found")) /\
  (is_Some (session interactionDetails) ->
   Js.truthy clientId && Js.typeof_string clientId = false ->
   get_consent timing queries interactionDetails
   = Rejected (InvalidClient "client must be available")) /\
  (is_Some (session interactionDetails) ->
   Js.truthy clientId && Js.typeof_string clientId = true ->
   Js.truthy redirectUri && Js.typeof_string redirectUri = false ->
   get_consent timing queries interactionDetails
   = Rejected (InvalidRedirectUri "redirect_uri must be available")).
Proof.
  cbn zeta. unfold get_consent. repeat split.
  - by intros ->.
  - intros [session0 ->] ->. reflexivity.
  - intros [session0 ->] -> ->. reflexivity.
Qed.

(** X8: a response of the read route exists only for a request with a session
    and non-empty string client id and redirect uri; it echoes that redirect
    uri, and its missingResourceScopes are the enrichment of the prompt's
    mapping (the empty mapping when the prompt has none) for the user with no
    organization. *)
Theorem get_consent_response timing queries interactionDetails response :
  get_consent timing queries interactionDetails = Resolved response ->
  exists session0 clientId redirectUri missingOIDCScope allMissingResourceScopes,
    session interactionDetails = Some session0 /\
    client_id (params interactionDetails) = Js.Str clientId /\ clientId <> "" /\
    redirect_uri (params interactionDetails) = Js.Str redirectUri /\ redirectUri <> "" /\
    cir_redirectUri response = redirectUri /\
    getMissingScopes (prompt interactionDetails)
    = Resolved (missingOIDCScope, allMissingResourceScopes) /\
    filterAndParseMissingResourceScopes (settle_global timing)
      (default [] allMissingResourceScopes) queries (accountId session0) None
    = Resolved (cir_missingResourceScopes response).
Proof.
  intros Hget.
  destruct (get_consent_inv _ _ _ _ Hget)
    as (session0 & clientId & redirectUri & oidc & all & ? & ? & ? & ? & ? & ? & ? & _ & ?).
  exists session0, clientId, redirectUri, oidc, all. by repeat split.
Qed.

(** X9: when the organizations scope is among the missing OIDC scopes, the
    organizations of the response are the user's organizations, one entry each,
    in the order of the lookup, under their ids and names.  With the dev
    features disabled no entry has missingResourceScopes; with them enabled
    each entry carries the enrichment computed for that organization. *)
Theorem get_consent_organizations
    timing queries interactionDetails response session0 missingOIDCScope
    allMissingResourceScopes scopes :
  get_consent timing queries interactionDetails = Resolved response ->
  session interactionDetails = Some session0 ->
  getMissingScopes (prompt interactionDetails)
  = Resolved (missingOIDCScope, allMissingResourceScopes) ->
  missingOIDCScope = Some scopes -> In UserScope_Organizations scopes ->
  Forall2
    (fun organization info =>
       oi_id info = organization_id organization /\
       oi_name info = organization_name organization /\
       if isDevFeaturesEnabled EnvSet_values
       then exists missingResourceScopes,
           oi_missingResourceScopes info = Some missingResourceScopes /\
           filterAndParseMissingResourceScopes (settle_organization timing organization)
             (default [] allMissingResourceScopes) queries (accountId session0)
             (Some (organization_id organization))
           = Resolved missingResourceScopes
       else oi_missingResourceScopes info = None)
    (organizations_relations_users_getOrganizationsByUserId queries (accountId session0))
    (cir_organizations response).
Proof.
  intros Hget Hsession Hmissing -> Hin.
  destruct (get_consent_inv _ _ _ _ Hget)
    as (session1 & _ & _ & oidc & all & Hs & _ & _ & _ & _ & Hm & _ & Horgs & _).
  rewrite Hsession in Hs. injection Hs as <-.
  rewrite Hmissing in Hm. injection Hm as <- <-.
  assert (Hincl : includes (Some scopes) UserScope_Organizations = true).
  { apply existsb_exists. exists UserScope_Organizations.
    split; [exact Hin|apply String.eqb_refl]. }
  rewrite Hincl in Horgs. revert Horgs.
  generalize (cir_organizations response).
  induction (organizations_relations_users_getOrganizationsByUserId queries
               (accountId session0)) as [|organization orgs IH];
    intros [|info infos]; simpl; try discriminate; [constructor|].
  intros [= Hinfo Hrest]. constructor; [|by apply IH].
  destruct (isDevFeaturesEnabled EnvSet_values); cbn [negb] in Hinfo.
  - destruct (filterAndParseMissingResourceScopes _ _ _ _ _) as [m|e] eqn:Hm;
      cbn [mbind Outcome_bind] in Hinfo; [|discriminate].
    injection Hinfo as <-. simpl. eauto.
  - injection Hinfo as <-. by simpl.
Qed.

(** X10: whatever the dev features flag and whatever scopes the user is
    granted, a read request that passes its preconditions and finds its
    application and user fails with an invalid-target error when the prompt's
    mapping holds an indicator, other than the reserved one, that names no
    resource. *)
Theorem get_consent_unknown_resource
    timing queries interactionDetails session0 clientId redirectUri application userInfo
    missingOIDCScope o indicator scopeNames :
  session interactionDetails = Some session0 ->
  client_id (params interactionDetails) = Js.Str clientId -> clientId <> "" ->
  redirect_uri (params interactionDetails) = Js.Str redirectUri -> redirectUri <> "" ->
  applications_findApplicationById queries clientId = Resolved application ->
  users_findUserById queries (accountId session0) = Resolved userInfo ->
  getMissingScopes (prompt interactionDetails) = Resolved (missingOIDCScope, Some o) ->
  Js.wf o ->
  In (indicator, scopeNames) (Js.entries o) ->
  indicator <> ReservedResource_Organization ->
  resources_findResourceByIndicator queries indicator = None ->
  exists description,
    get_consent timing queries interactionDetails = Rejected (InvalidTarget description).
Proof.
  intros Hsession Hclient Hc Hredirect Hr Happ Huser Hmissing Hwf Hin Hne Hnone.
  destruct (filterAndParse_unknown_resource (settle_global timing) o queries
              (accountId session0) None indicator scopeNames Hwf Hin Hne Hnone)
    as [description Hrej].
  exists description.
  eapply get_consent_enrichment_rejects; eauto.
Qed.

(** *** More on the write path *)

Lemma post_consent_stops queries interactionDetails body log ids :
  organizationIds body = Some ids -> ids <> [] ->
  (session interactionDetails = None ->
   post_consent queries interactionDetails body log
   = (Rejected (RequestError "session.not_found"), log)) /\
  (is_Some (session interactionDetails) ->
   Js.truthy (client_id (params interactionDetails))
   && Js.typeof_string (client_id (params interactionDetails)) = false ->
   post_consent queries interactionDetails body log
   = (Rejected (InvalidClient "client must be available"), log)).
Proof.
  intros Hbody Hne. unfold post_consent. rewrite Hbody.
  destruct ids as [|id ids]; [done|]. cbn [has_length].
  unfold mbind, Routine_bind, lift. split.
  - by intros ->.
  - intros [session0 ->] Hclient. cbn [assertThat]. by rewrite Hclient.
Qed.

(** X11: with organization ids to grant, the write route checks the session
    and then the client id before anything else: a missing session fails with
    [session.not_found] and a missing or non-string client id with an
    invalid-client error, and in both cases no collaborator is called: nothing
    is validated, inserted or finalized. *)
Theorem post_consent_preconditions queries interactionDetails body log ids :
  organizationIds body = Some ids -> ids <> [] ->
  let applicationId := client_id (params interactionDetails) in
  (session interactionDetails = None ->
   post_consent queries interactionDetails body log
   = (Rejected (RequestError "session.not_found"), log)) /\
  (is_Some (session interactionDetails) ->
   Js.truthy applicationId && Js.typeof_string applicationId = false ->
   post_consent queries interactionDetails body log
   = (Rejected (InvalidClient "client must be available"), log)).
Proof.
  intros Hbody Hne. exact (post_consent_stops _ _ _ log ids Hbody Hne).
Qed.

(** Every run of the write route: either it rejects before the provider is
    asked, having inserted nothing; or its last call is the provider's
    consent, whose answer it returns, preceded by nothing or by a resolved
    validation and the one batch. *)
Lemma post_consent_runs queries interactionDetails body log :
  (exists e, fst (post_consent queries interactionDetails body log) = Rejected e /\
             persisted (snd (post_consent queries interactionDetails body log))
             = persisted log /\
             finalized (snd (post_consent queries interactionDetails body log))
             = finalized log) \/
  (exists before,
      post_consent queries interactionDetails body log
      = (respond (consent_result before interactionDetails),
         before ++ [Consent interactionDetails]) /\
      (before = log \/
       exists session0 ids,
         session interactionDetails = Some session0 /\
         organizationIds body = Some ids /\ ids <> [] /\
         fst (validateUserConsentOrganizationMembership queries (accountId session0) ids log)
         = Resolved tt /\
         before = log ++ [ValidateMembership (accountId session0) ids;
                          InsertUserConsentOrganizations
                            (map (fun id => (Js.as_string
                                               (client_id (params interactionDetails)),
                                             accountId session0, id)) ids)])).
Proof.
  destruct (has_length (organizationIds body)) as [ids|] eqn:Hlength.
  - assert (Hbody : organizationIds body = Some ids /\ ids <> []).
    { destruct (organizationIds body) as [[|id ids']|]; try discriminate.
      injection Hlength as <-. by split. }
    destruct Hbody as [Hbody Hne].
    destruct (session interactionDetails) as [session0|] eqn:Hsession.
    + destruct (Js.truthy (client_id (params interactionDetails))
                && Js.typeof_string (client_id (params interactionDetails))) eqn:Hclient.
      * destruct (nonempty_string _ Hclient) as (applicationId & Happ & Hname).
        rewrite (post_consent_granting _ _ _ _ ids session0 applicationId) by done.
        destruct (validateUserConsentOrganizationMembership queries (accountId session0)
                    ids log) as [[[]|e] log1] eqn:Hvalid.
        -- right. eexists. split; [reflexivity|]. right.
           exists session0, ids. rewrite Happ. cbn [Js.as_string fst].
           repeat split; try done.
           ++ by rewrite Hvalid.
           ++ unfold validateUserConsentOrganizationMembership in Hvalid.
              injection Hvalid as _ <-. by rewrite <- app_assoc.
        -- left. exists e. cbn [fst snd].
           unfold validateUserConsentOrganizationMembership in Hvalid.
           injection Hvalid as _ <-.
           rewrite persisted_app, finalized_app. simpl. by rewrite !app_nil_r.
      * left. eexists.
        rewrite (proj2 (post_consent_stops _ _ _ log ids Hbody Hne)) by eauto.
        by cbn.
    + left. eexists.
      rewrite (proj1 (post_consent_stops _ _ _ log ids Hbody Hne)) by eauto.
      by cbn.
  - right. exists log. split; [|by left].
    unfold post_consent. rewrite Hlength.
    unfold mbind, Routine_bind, mret, Routine_ret, consent, respond.
    destruct (consent_result log interactionDetails); reflexivity.
Qed.

(** X12: the write route never hands storage a grant without a validated
    membership: after any run, either nothing was inserted, or the request had
    a session and organization ids, the membership validation of the session's
    user for those ids resolved, and what was inserted is the one tuple per id
    for that user and the request's client. *)
Theorem post_consent_grants_need_validation queries interactionDetails body log :
  let result := post_consent queries interactionDetails body log in
  persisted (snd result) = persisted log \/
  exists session0 ids,
    session interactionDetails = Some session0 /\
    organizationIds body = Some ids /\ ids <> [] /\
    fst (validateUserConsentOrganizationMembership queries (accountId session0) ids log)
    = Resolved tt /\
    persisted (snd result)
    = persisted log ++ map (fun id => (Js.as_string (client_id (params interactionDetails)),
                                        accountId session0, id)) ids.
Proof.
  cbn zeta.
  destruct (post_consent_runs queries interactionDetails body log)
    as [(e & _ & Hp & _)|(before & Hresult & [->|(session0 & ids & Hs & Hb & Hne & Hv & ->)])].
  - by left.
  - left. rewrite Hresult. cbn [snd].
    rewrite persisted_app. simpl. by rewrite app_nil_r.
  - right. exists session0, ids. repeat split; try done.
    rewrite Hresult. cbn [snd].
    rewrite !persisted_app. simpl. by rewrite !app_nil_r.
Qed.

(** X13: the write route asks the provider to finalize at most once per run,
    as its last call and with the interaction details of the request; and every
    response it gives carries the redirect target the provider answered in
    that call. *)
Theorem post_consent_finalizes_once queries interactionDetails body log :
  let result := post_consent queries interactionDetails body log in
  (finalized (snd result) = finalized log \/
   finalized (snd result) = finalized log ++ [interactionDetails]) /\
  forall response,
    fst result = Resolved response ->
    exists before,
      snd result = before ++ [Consent interactionDetails] /\
      consent_result before interactionDetails = Resolved (redirectTo response) /\
      finalized (snd result) = finalized log ++ [interactionDetails].
Proof.
  cbn zeta.
  destruct (post_consent_runs queries interactionDetails body log)
    as [(e & He & _ & Hf)|(before & Hresult & Hbefore)].
  - split; [by left|]. intros response Hresponse. congruence.
  - rewrite Hresult. cbn [fst snd].
    assert (Hfin : finalized (before ++ [Consent interactionDetails])
                   = finalized log ++ [interactionDetails]).
    { rewrite finalized_app. simpl.
      destruct Hbefore as [->|(session0 & ids & _ & _ & _ & _ & ->)]; [reflexivity|].
      rewrite finalized_app. simpl. by rewrite app_nil_r. }
    split; [by right|]. intros response Hresponse. exists before.
    split; [reflexivity|]. split; [|exact Hfin].
    unfold respond in Hresponse.
    destruct (consent_result before interactionDetails); [|discriminate].
    by injection Hresponse as <-.
Qed.

End Routes.

(** ** Properties of the scope picker *)

Section ScopePicker.
Import SourceScopesBox.
Implicit Types (selectedScopes : list ScopeResponse) (scope other : ScopeResponse).
Implicit Types resource : DetailedResourceResponse.

Lemma findIndex_found {A} (p : A -> bool) (l : list A) :
  Z.leb 0 (findIndex p l) = existsb p l.
Proof.
  induction l as [|x l IH]; simpl; [reflexivity|].
  destruct (p x); simpl; [reflexivity|]. rewrite <- IH.
  destruct (Z.ltb_spec (findIndex p l) 0) as [Hneg|Hpos].
  - symmetry. apply Z.leb_gt. exact Hneg.
  - transitivity true; [|symmetry]; apply Z.leb_le; lia.
Qed.

Lemma isScopeAdded_existsb selectedScopes scope :
  isScopeAdded selectedScopes scope
  = existsb (fun s => sr_id s =? sr_id scope) selectedScopes.
Proof. apply findIndex_found. Qed.

Lemma existsb_filter_out {A} (p q : A -> bool) (l : list A) :
  (forall x, p x = true -> q x = true) ->
  existsb p (List.filter (fun x => negb (q x)) l) = false.
Proof.
  intros Hpq. induction l as [|x l IH]; simpl; [reflexivity|].
  destruct (q x) eqn:Hq; simpl; [exact IH|]. rewrite IH.
  destruct (p x) eqn:Hp; [|reflexivity]. apply Hpq in Hp. congruence.
Qed.

Lemma existsb_filter_keep {A} (p q : A -> bool) (l : list A) :
  (forall x, p x = true -> q x = false) ->
  existsb p (List.filter (fun x => negb (q x)) l) = existsb p l.
Proof.
  intros Hpq. induction l as [|x l IH]; simpl; [reflexivity|].
  destruct (q x) eqn:Hq; simpl; rewrite IH; [|reflexivity].
  destruct (p x) eqn:Hp; [|reflexivity]. apply Hpq in Hp. congruence.
Qed.

Lemma filter_nothing {A} (p : A -> bool) (l : list A) :
  existsb p l = false -> List.filter (fun x => negb (p x)) l = l.
Proof.
  induction l as [|x l IH]; simpl; [reflexivity|].
  destruct (p x); simpl; [discriminate|]. intros H. by rewrite IH.
Qed.

Lemma in_ids (ids : list string) (id : string) :
  bool_decide (id ∈ (list_to_set ids : gset string)) = true <-> In id ids.
Proof.
  rewrite bool_decide_eq_true, elem_of_list_to_set. apply list_elem_of_In.
Qed.

(** X14: selecting a scope toggles it and nothing else: the scope is added
    when it was not and removed when it was, and every scope with another id
    stays as it was. *)
Theorem onSelectScope_toggles selectedScopes scope :
  isScopeAdded (onSelectScope selectedScopes scope) scope
  = negb (isScopeAdded selectedScopes scope) /\
  forall other,
    sr_id other <> sr_id scope ->
    isScopeAdded (onSelectScope selectedScopes scope) other
    = isScopeAdded selectedScopes other.
Proof.
  unfold onSelectScope. rewrite ?isScopeAdded_existsb.
  destruct (existsb _ selectedScopes) eqn:Hadded; simpl.
  - split.
    + rewrite ?isScopeAdded_existsb. by apply existsb_filter_out.
    + intros other Hne. rewrite ?isScopeAdded_existsb. apply existsb_filter_keep.
      intros s Hs. apply String.eqb_eq in Hs. apply String.eqb_neq. congruence.
  - split.
    + rewrite ?isScopeAdded_existsb. simpl. by rewrite String.eqb_refl.
    + intros other Hne. rewrite ?isScopeAdded_existsb. simpl.
      replace (sr_id scope =? sr_id other) with false; [reflexivity|].
      symmetry. apply String.eqb_neq. congruence.
Qed.

(** X15: selecting a scope that is not selected, then selecting it again,
    gives back the selection one started from. *)
Theorem onSelectScope_twice selectedScopes scope :
  isScopeAdded selectedScopes scope = false ->
  onSelectScope (onSelectScope selectedScopes scope) scope = selectedScopes.
Proof.
  intros Hnot. unfold onSelectScope at 2. rewrite Hnot.
  unfold onSelectScope. rewrite isScopeAdded_existsb. simpl.
  rewrite String.eqb_refl. simpl.
  apply (filter_nothing (fun s => sr_id s =? sr_id scope)).
  by rewrite <- isScopeAdded_existsb.
Qed.

(** X16: selecting a resource toggles its scopes as a whole and touches no
    other: when all its scopes are selected (also when it has none) they are
    all removed, otherwise they all become selected; every scope whose id is
    not one of the resource's stays as it was. *)
Theorem onSelectResource_toggles_all selectedScopes resource :
  let isAllSelected :=
    forallb (fun scope => isScopeAdded selectedScopes scope) (dr_scopes resource) in
  (forall scope,
     In scope (dr_scopes resource) ->
     isScopeAdded (onSelectResource selectedScopes resource) scope = negb isAllSelected) /\
  (forall other,
     ~ In (sr_id other) (map sr_id (dr_scopes resource)) ->
     isScopeAdded (onSelectResource selectedScopes resource) other
     = isScopeAdded selectedScopes other).
Proof.
  cbn zeta. unfold onSelectResource.
  set (ids := list_to_set (map sr_id (dr_scopes resource)) : gset string).
  set (rest := List.filter (fun s => negb (bool_decide (sr_id s ∈ ids))) selectedScopes).
  assert (Hin : forall scope, In scope (dr_scopes resource) ->
                              existsb (fun s => sr_id s =? sr_id scope) rest = false).
  { intros scope Hscope.
    apply (existsb_filter_out _ (fun s => bool_decide (sr_id s ∈ ids))). intros s Hs.
    apply String.eqb_eq in Hs. apply in_ids. rewrite Hs. by apply in_map. }
  assert (Hout : forall other, ~ In (sr_id other) (map sr_id (dr_scopes resource)) ->
                               existsb (fun s => sr_id s =? sr_id other) rest
                               = existsb (fun s => sr_id s =? sr_id other) selectedScopes).
  { intros other Hother.
    apply (existsb_filter_keep _ (fun s => bool_decide (sr_id s ∈ ids))). intros s Hs.
    apply String.eqb_eq in Hs. apply not_true_is_false. unfold ids. rewrite in_ids.
    congruence. }
  split.
  - intros scope Hscope. destruct (forallb _ _); rewrite isScopeAdded_existsb; simpl.
    + by apply Hin.
    + rewrite existsb_app. apply orb_true_iff. left. apply existsb_exists.
      exists scope. split; [exact Hscope|apply String.eqb_refl].
  - intros other Hother. destruct (forallb _ _); rewrite !isScopeAdded_existsb.
    + by apply Hout.
    + rewrite existsb_app, (Hout other Hother).
      replace (existsb _ (dr_scopes resource)) with false; [reflexivity|].
      symmetry. apply not_true_is_false. intros Hex.
      apply existsb_exists in Hex as (s & Hs & Heq). apply String.eqb_eq in Heq.
      apply Hother. rewrite <- Heq. by apply in_map.
Qed.

Lemma NoDup_map_filter {A} (f : A -> string) (p : A -> bool) (l : list A) :
  NoDup (map f l) -> NoDup (map f (List.filter p l)).
Proof.
  induction l as [|x l IH]; simpl; [done|].
  rewrite NoDup_cons. intros [Hx Hl]. destruct (p x); simpl; [|by apply IH].
  apply NoDup_cons. split; [|by apply IH].
  rewrite list_elem_of_In in Hx |- *. intros Hin. apply Hx.
  apply in_map_iff in Hin as (y & Hy & Hin). apply filter_In in Hin as [Hin _].
  rewrite <- Hy. by apply in_map.
Qed.

(** X17: the two selection handlers never duplicate an id: from a selection
    with distinct ids, selecting a scope gives a selection with distinct ids,
    and so does selecting a resource whose scopes have distinct ids. *)
Theorem selection_keeps_ids_distinct selectedScopes scope resource :
  NoDup (map sr_id selectedScopes) ->
  NoDup (map sr_id (onSelectScope selectedScopes scope)) /\
  (NoDup (map sr_id (dr_scopes resource)) ->
   NoDup (map sr_id (onSelectResource selectedScopes resource))).
Proof.
  intros Hsel. split.
  - unfold onSelectScope. rewrite isScopeAdded_existsb.
    destruct (existsb _ selectedScopes) eqn:Hadded; [by apply NoDup_map_filter|].
    simpl. apply NoDup_cons. split; [|exact Hsel].
    rewrite list_elem_of_In. intros Hin. apply in_map_iff in Hin as (s & Hs & Hin).
    apply not_true_iff_false in Hadded. apply Hadded, existsb_exists.
    exists s. split; [exact Hin|by apply String.eqb_eq].
  - intros Hres. unfold onSelectResource.
    destruct (forallb _ _); [by apply NoDup_map_filter|].
    rewrite map_app. apply NoDup_app. split; [exact Hres|].
    split; [|by apply NoDup_map_filter].
    intros id Hid Hrest. rewrite list_elem_of_In in Hid, Hrest.
    apply in_map_iff in Hrest as (s & Hs & Hin). apply filter_In in Hin as [_ Hkeep].
    apply negb_true_iff, not_true_iff_false in Hkeep. apply Hkeep, in_ids. by rewrite Hs.
Qed.

Lemma not_excluded (ids : list string) (id : string) :
  negb (bool_decide (id ∈ (list_to_set ids : gset string))) = true <-> ~ In id ids.
Proof.
  rewrite negb_true_iff, <- not_true_iff_false, in_ids. reflexivity.
Qed.

(** X18: what the picker offers.  While the resources are not fetched, or a
    role is given and its scopes are not fetched, nothing is offered.
    Otherwise every offered resource has at least one scope, no offered scope
    is [managementApiScopeAll] or a scope the role already has, and every
    offered scope points back to the resource it is listed under. *)
Theorem resources_offered managementApiScopeAll roleId allResources roleScopes :
  (allResources = None ->
   resources managementApiScopeAll roleId allResources roleScopes = []) /\
  (Js.Boolean_of roleId = true -> roleScopes = None ->
   resources managementApiScopeAll roleId allResources roleScopes = []) /\
  forall resource,
    In resource (resources managementApiScopeAll roleId allResources roleScopes) ->
    dr_scopes resource <> [] /\
    forall scope,
      In scope (dr_scopes resource) ->
      sr_id scope <> managementApiScopeAll /\
      (forall existing, roleScopes = Some existing ->
                        ~ In (sr_id scope) (map scope_id existing)) /\
      sr_resource scope = dr_resource resource.
Proof.
  unfold resources. split; [by intros ->|]. split.
  - intros Hrole ->. destruct allResources; [|reflexivity]. by rewrite Hrole.
  - intros resource. destruct allResources as [all|]; [|intros []].
    destruct (_ && _); [intros []|].
    set (excluded := default [] (map scope_id <$> roleScopes) ++ [managementApiScopeAll]).
    intros Hin. apply in_map_iff in Hin as (r & <- & Hr).
    apply filter_In in Hr as [Hr Hsome]. simpl. split.
    + apply existsb_exists in Hsome as (s & Hs & Hkeep).
      intros Hnil. apply map_eq_nil in Hnil.
      assert (Hmem : In s (List.filter
                             (fun sc => negb (bool_decide
                                (scope_id sc ∈ (list_to_set excluded : gset string))))
                             (rr_scopes r))) by (apply filter_In; by split).
      rewrite Hnil in Hmem. destruct Hmem.
    + intros scope Hscope. apply in_map_iff in Hscope as (s & <- & Hs).
      apply filter_In in Hs as [Hs Hkeep]. apply not_excluded in Hkeep. simpl.
      split; [|split; [|reflexivity]].
      * intros Heq. apply Hkeep. unfold excluded. apply in_or_app. right. by left.
      * intros existing -> Hex. apply Hkeep. unfold excluded. apply in_or_app. by left.
Qed.

(** X19: the picker hides nothing else: once the fetches have arrived, every
    scope of every fetched resource that is neither [managementApiScopeAll]
    nor a scope of the role is offered, under its resource. *)
Theorem resources_complete managementApiScopeAll roleId all roleScopes r (sc : Scope) :
  (Js.Boolean_of roleId = true -> is_Some roleScopes) ->
  In r all -> In sc (rr_scopes r) ->
  scope_id sc <> managementApiScopeAll ->
  (forall existing, roleScopes = Some existing ->
                    ~ In (scope_id sc) (map scope_id existing)) ->
  exists resource,
    In resource (resources managementApiScopeAll roleId (Some all) roleScopes) /\
    dr_resource resource = rr_resource r /\
    In {| sr_id := scope_id sc; sr_name := scope_name sc;
          sr_resource := rr_resource r |} (dr_scopes resource).
Proof.
  intros Hfetched Hr Hscope Hmgmt Hnew. unfold resources.
  assert (Hgo : Js.Boolean_of roleId && negb (bool_decide (is_Some roleScopes)) = false).
  { destruct (Js.Boolean_of roleId); [|reflexivity]. simpl.
    apply negb_false_iff, bool_decide_eq_true. by apply Hfetched. }
  rewrite Hgo.
  set (excluded := default [] (map scope_id <$> roleScopes) ++ [managementApiScopeAll]).
  assert (Hkeep : negb (bool_decide (scope_id sc ∈ (list_to_set excluded : gset string)))
                  = true).
  { apply not_excluded. unfold excluded. intros Hin.
    apply in_app_or in Hin as [Hin|[Heq|[]]]; [|congruence].
    destruct roleScopes as [existing|]; [|destruct Hin]. by apply (Hnew existing). }
  eexists. split; [|split].
  - apply in_map_iff. exists r. split; [reflexivity|]. apply filter_In. split; [exact Hr|].
    apply existsb_exists. by exists sc.
  - reflexivity.
  - simpl. apply in_map_iff. exists sc. split; [reflexivity|].
    apply filter_In. by split.
Qed.

Lemma filter_sublist {A} (p : A -> bool) (l : list A) : sublist (List.filter p l) l.
Proof.
  induction l as [|x l IH]; simpl; [constructor|]. destruct (p x); by constructor.
Qed.

(** X20: the search.  A keyword that lower-cases to the empty string shows
    the resources as they are.  Any other keyword shows resources taken from
    the list in its order, each with a non-empty selection of its own scopes,
    in their order, and every shown scope contains the keyword in its name or
    in the name of its resource. *)
Theorem dataSource_search toLowerCase toLocaleLowerCase keyword
    (offered : list DetailedResourceResponse) :
  (toLowerCase keyword = "" ->
   dataSource toLowerCase toLocaleLowerCase keyword offered = offered) /\
  (toLowerCase keyword <> "" ->
   sublist (map dr_resource (dataSource toLowerCase toLocaleLowerCase keyword offered))
           (map dr_resource offered) /\
   forall resource,
     In resource (dataSource toLowerCase toLocaleLowerCase keyword offered) ->
     dr_scopes resource <> [] /\
     (exists source, In source offered /\ dr_resource resource = dr_resource source /\
                     sublist (dr_scopes resource) (dr_scopes source)) /\
     forall scope,
       In scope (dr_scopes resource) ->
       includes (toLocaleLowerCase (sr_name scope)) (toLowerCase keyword) = true \/
       includes (toLocaleLowerCase (resource_name (sr_resource scope)))
                (toLowerCase keyword) = true).
Proof.
  unfold dataSource. split.
  - by intros ->.
  - intros Hkeyword. apply String.eqb_neq in Hkeyword. rewrite Hkeyword. split.
    + induction offered as [|r rs IH]; simpl; [constructor|].
      destruct (_ || _); simpl; [|by constructor].
      destruct (0 <? _)%nat; simpl; by constructor.
    + intros resource Hin. apply filter_In in Hin as [Hin Hsome].
      apply in_map_iff in Hin as (source & <- & Hsource).
      apply filter_In in Hsource as [Hsource _]. simpl in *. split; [|split].
      * intros Hnil. by rewrite Hnil in Hsome.
      * exists source. split; [exact Hsource|]. split; [reflexivity|apply filter_sublist].
      * intros scope Hscope. apply filter_In in Hscope as [_ Hmatch].
        by apply orb_true_iff in Hmatch.
Qed.

(** X21: the empty placeholder is shown only for real emptiness: [isEmpty]
    holds only when the resources have arrived, the role's scopes too when a
    role is given, no fetch failed, and there is nothing to show. *)
Theorem isEmpty_means_fetched {E} roleId allResources (fetchAllResourcesError : option E)
    roleScopes (fetchRoleScopesError : option E) (shown : list DetailedResourceResponse) :
  isEmpty (isLoading roleId allResources fetchAllResourcesError roleScopes
                     fetchRoleScopesError)
          (hasError roleId fetchAllResourcesError fetchRoleScopesError) shown = true ->
  is_Some allResources /\
  (Js.Boolean_of roleId = true -> is_Some roleScopes) /\
  fetchAllResourcesError = None /\
  (Js.Boolean_of roleId = true -> fetchRoleScopesError = None) /\
  shown = [].
Proof.
  unfold isEmpty, isLoading, hasError.
  destruct allResources, fetchAllResourcesError, roleScopes, fetchRoleScopesError,
    (Js.Boolean_of roleId), shown; simpl; try discriminate; intros _;
    repeat split; eauto; discriminate.
Qed.

End ScopePicker.

Arguments resourceWithScopes ReservedResource_Organization {_ _ _} queries entry.
Arguments parseMissingResourceScopesInfo ReservedResource_Organization {_ _ _}
  resource_shape scope_shape first queries missingResourceScopes.
Arguments filteredResourceScopes EnvSet_values {_ _ _} findResourceScopes
  resourceScopes queries userId organizationId.
Arguments filterAndParseMissingResourceScopes ReservedResource_Organization EnvSet_values
  {_ _ _} resource_shape scope_shape findResourceScopes first resourceScopes queries
  userId organizationId.
Arguments contributes ReservedResource_Organization {_ _ _} queries entry.
Arguments enriched ReservedResource_Organization {_ _ _} resource_shape scope_shape
  queries entry record.
Arguments is_member {_ _ _} queries userId organizationId.
Arguments validates {_ _ _ _} consent_result queries interactionDetails body log userId ids.
Arguments validateUserConsentOrganizationMembership {_ _ _ _} queries userId
  organizationIds _.
Arguments post_consent {_ _ _ _} consent_result queries interactionDetails body _.
Arguments get_consent ReservedResource_Organization UserScope_Organizations EnvSet_values
  {_ _ _ _ _ _ _} resource_shape scope_shape publicApplicationGuard_parse
  applicationSignInExperienceGuard_parse publicUserInfoGuard_parse getMissingScopes
  findResourceScopes timing queries interactionDetails.
Arguments cir_organizations {_ _ _} _.
Arguments cir_missingOIDCScope {_ _ _} _.
Arguments cir_missingResourceScopes {_ _ _} _.

(** ** The properties on the sample tenant *)

Local Abbreviation enrich :=
  (parseMissingResourceScopesInfo Sample.reserved Sample.any Sample.any).
Local Abbreviation post := (post_consent Sample.provider Sample.queries).
Local Abbreviation get :=
  (get_consent Sample.reserved Sample.organizations Sample.off Sample.any Sample.any
     Sample.guard Sample.guard Sample.guard Sample.getMissingScopes Sample.no_scopes
     Sample.timing Sample.queries).

Example array_index_examples :
  Js.array_index "0" = Some 0%N /\ Js.array_index "42" = Some 42%N /\
  Js.array_index "042" = None /\ Js.array_index "4294967294" = Some 4294967294%N /\
  Js.array_index "4294967295" = None /\ Js.array_index "https://api" = None /\
  Js.array_index "" = None /\ Js.array_index "1e3" = None.
Proof. vm_compute. repeat split. Qed.

Example entries_example :
  Js.entries (Js.fromEntries [("b", 1); ("10", 2); ("a", 3); ("9", 4); ("b", 5)])
  = [("9", 4); ("10", 2); ("b", 5); ("a", 3)].
Proof. reflexivity. Qed.

Example enrich_sample : enrich 0 Sample.queries (Some Sample.missing) = Resolved Sample.enrichment.
Proof. reflexivity. Qed.

(** Two lookups reject; which description the caller sees depends on which
    settles first. *)
Example enrich_race :
  let mapping := Some [("https://nowhere.example.com", []);
                       (Sample.reserved, ["read:ghost"])] in
  enrich 0 Sample.queries mapping
  = Rejected (InvalidTarget "resource with indicator https://nowhere.example.com not found") /\
  enrich 1 Sample.queries mapping
  = Rejected (InvalidTarget "scope with name read:ghost not found for organization resource").
Proof. split; reflexivity. Qed.

(** Index-like indicators are enumerated first, and the records follow. *)
Example enrich_index_keys :
  Js.entries (Js.fromEntries [("https://api.example.com", ["read:orders"]); ("7", [])])
  = [("7", []); ("https://api.example.com", ["read:orders"])] /\
  enrich 0 Sample.queries
    (Some (Js.fromEntries [("https://api.example.com", ["read:orders"]); ("7", [])]))
  = Rejected (InvalidTarget "resource with indicator 7 not found").
Proof. split; reflexivity. Qed.

(** An unknown organization scope next to a known one. *)
Lemma unknown_organization_scope_is_fatal_witness :
  exists description,
    enrich 0 Sample.queries
      (Some [("https://api.example.com", ["read:orders"]);
             (Sample.reserved, ["read:member"; "read:ghost"])])
    = Rejected (InvalidTarget description).
Proof.
  apply (unknown_organization_scope_is_fatal Sample.reserved _ _ _ Sample.any Sample.any 0
           Sample.queries _ ["read:member"; "read:ghost"] "read:ghost").
  - vm_compute. right. left. reflexivity.
  - simpl. right. left. reflexivity.
  - intros scope Hin. vm_compute in Hin. destruct Hin as [<-|[]]. discriminate.
Defined.

(** An unknown resource after a resource that resolves. *)
Lemma unknown_resource_is_fatal_witness :
  exists description,
    enrich 0 Sample.queries
      (Some [("https://api.example.com", ["read:orders"]);
             ("https://nowhere.example.com", ["read:orders"])])
    = Rejected (InvalidTarget description).
Proof.
  apply (unknown_resource_is_fatal Sample.reserved _ _ _ Sample.any Sample.any 0
           Sample.queries _ "https://nowhere.example.com" ["read:orders"]).
  - vm_compute. right. left. reflexivity.
  - discriminate.
  - reflexivity.
Defined.

(** On the sample mapping: the lookup of the orders resource resolves with the
    one scope that resolved although [read:ghost] does not; the enricher answers
    as for the mapping that asks the orders resource for [read:orders] only, and
    as for the mapping without the files resource, none of whose names resolve;
    every record has scopes, the orders record holds the one scope that
    resolved, and the files resource stands for no record. *)
Lemma unresolved_scopes_are_dropped_witness :
  resourceWithScopes Sample.reserved Sample.queries
    ("https://api.example.com", ["read:orders"; "read:ghost"])
  = Resolved {| rws_resource := ResourceRow Sample.api;
                rws_scopes := [Sample.read_orders] |} /\
  enrich 0 Sample.queries (Some Sample.missing)
  = enrich 0 Sample.queries
      (Some [("https://files.example.com", ["read:ghost"]);
             (Sample.reserved, ["read:member"]);
             ("https://api.example.com", ["read:orders"])]) /\
  enrich 0 Sample.queries (Some Sample.missing)
  = enrich 0 Sample.queries
      (Some [(Sample.reserved, ["read:member"]);
             ("https://api.example.com", ["read:orders"; "read:ghost"])]) /\
  Forall (fun record => mrs_scopes record <> []) Sample.enrichment /\
  (forall record,
     enriched Sample.reserved Sample.any Sample.any Sample.queries
              ("https://api.example.com", ["read:orders"; "read:ghost"]) record ->
     mrs_scopes record = [Sample.read_orders]) /\
  ~ In ("https://files.example.com", ["read:ghost"])
       (List.filter (contributes Sample.reserved Sample.queries) (Js.entries Sample.missing)).
Proof.
  destruct (unresolved_scopes_are_dropped Sample.reserved _ _ _ Sample.any Sample.any 0
              Sample.queries) as [Hlookup Hreturned].
  destruct (Hlookup "https://api.example.com" ["read:orders"; "read:ghost"] Sample.api)
    as [Horders Hsilent]; [discriminate|reflexivity|].
  destruct (Hlookup "https://files.example.com" ["read:ghost"] Sample.files)
    as [_ Habsent]; [discriminate|reflexivity|].
  destruct (Hreturned Sample.missing Sample.enrichment eq_refl)
    as (Hscopes & _ & Hresources).
  split; [exact Horders|]. split; [|split].
  - refine (proj1 (Hsilent Sample.missing
                     [("https://files.example.com", ["read:ghost"]);
                      (Sample.reserved, ["read:member"]);
                      ("https://api.example.com", ["read:orders"])]
                     [("https://files.example.com", ["read:ghost"]);
                      (Sample.reserved, ["read:member"])] [] eq_refl) eq_refl).
  - refine (proj2 (Habsent Sample.missing
                     [(Sample.reserved, ["read:member"]);
                      ("https://api.example.com", ["read:orders"; "read:ghost"])]
                     []
                     [(Sample.reserved, ["read:member"]);
                      ("https://api.example.com", ["read:orders"; "read:ghost"])]
                     eq_refl) _ eq_refl).
    intros scopeName [<-|[]]. reflexivity.
  - split; [exact Hscopes|]. split.
    + intros record Hrecord.
      destruct (Hresources "https://api.example.com" ["read:orders"; "read:ghost"]
                  Sample.api) as [Hkept _].
      * vm_compute. right. right. left. reflexivity.
      * discriminate.
      * reflexivity.
      * exact (proj1 (Hkept record Hrecord)).
    + destruct (Hresources "https://files.example.com" ["read:ghost"] Sample.files)
        as [_ Hdropped].
      * vm_compute. left. reflexivity.
      * discriminate.
      * reflexivity.
      * apply Hdropped. intros scopeName [<-|[]]. reflexivity.
Defined.

(** The two records of the sample come in the order of their indicators. *)
Lemma output_follows_mapping_order_witness :
  sublist [(Sample.reserved, ["read:member"]);
           ("https://api.example.com", ["read:orders"; "read:ghost"])]
          (Js.entries Sample.missing) /\
  Forall2 (enriched Sample.reserved Sample.any Sample.any Sample.queries)
          [(Sample.reserved, ["read:member"]);
           ("https://api.example.com", ["read:orders"; "read:ghost"])]
          Sample.enrichment.
Proof.
  exact (output_follows_mapping_order Sample.reserved _ _ _ Sample.any Sample.any 0
           Sample.queries Sample.missing Sample.enrichment eq_refl).
Defined.

Lemma filter_skipped_when_disabled_witness :
  Js.entries (filteredResourceScopes Sample.off Sample.no_scopes Sample.missing
                                     Sample.queries "user-1" None)
  = Js.entries Sample.missing /\
  filterAndParseMissingResourceScopes Sample.reserved Sample.off Sample.any Sample.any
    Sample.no_scopes 0 Sample.missing Sample.queries "user-1" None
  = enrich 0 Sample.queries (Some Sample.missing).
Proof.
  apply (filter_skipped_when_disabled Sample.reserved Sample.off _ _ _ Sample.any Sample.any
           Sample.no_scopes 0 Sample.missing Sample.queries "user-1" None).
  - reflexivity.
  - apply (bool_decide_unpack _). vm_compute. reflexivity.
Defined.

(** C1 as stated fails: the user is not a member of [org-2], yet with no client
    id the request is refused as an invalid client before membership is looked
    at (nothing is granted or finalized either way). *)
Lemma stranger_without_client_is_not_a_membership_error :
  let interactionDetails := Sample.details Js.Undefined (None, None) in
  let body := {| organizationIds := Some ["org-1"; "org-2"] |} in
  (In "org-2" ["org-1"; "org-2"] /\ ~ is_member Sample.queries "user-1" "org-2") /\
  post interactionDetails body []
  = (Rejected (InvalidClient "client must be available"), []) /\
  fst (post interactionDetails body []) <> Rejected NotAMember.
Proof.
  cbn zeta. split; [split|split].
  - right. left. reflexivity.
  - intros (organization & Hin & Hid). vm_compute in Hin.
    destruct Hin as [<-|[]]. discriminate.
  - reflexivity.
  - discriminate.
Defined.

Lemma stranger_organization_fails_without_grants_witness :
  post (Sample.details (Js.Str "app-1") (None, None))
       {| organizationIds := Some ["org-1"; "org-2"] |} []
  = (Rejected NotAMember, [ValidateMembership "user-1" ["org-1"; "org-2"]]).
Proof.
  refine (proj1 (stranger_organization_fails_without_grants _ _ _ _ Sample.provider
                   Sample.queries (Sample.details (Js.Str "app-1") (None, None))
                   {| organizationIds := Some ["org-1"; "org-2"] |} []
                   ["org-1"; "org-2"] {| accountId := "user-1" |} "app-1" "org-2"
                   eq_refl eq_refl eq_refl _ _ _)).
  - discriminate.
  - right. left. reflexivity.
  - intros (organization & Hin & Hid). vm_compute in Hin.
    destruct Hin as [<-|[]]. discriminate.
Defined.

(** C2 as stated fails: [user-1] is a member of both organizations, so the
    membership validation succeeds for all ids, yet with no client id the
    request is refused as an invalid client before validation is reached:
    nothing is granted and the provider is not asked. *)
Lemma members_without_client_are_not_granted :
  let interactionDetails := Sample.details Js.Undefined (None, None) in
  let body := {| organizationIds := Some ["org-1"; "org-2"] |} in
  let result := post_consent Sample.provider Fixture.both interactionDetails body [] in
  (forall id, In id ["org-1"; "org-2"] -> is_member Fixture.both "user-1" id) /\
  fst (validateUserConsentOrganizationMembership Fixture.both "user-1" ["org-1"; "org-2"]
         ([] : list (Call Sample.Prompt)))
  = Resolved tt /\
  result = (Rejected (InvalidClient "client must be available"), []) /\
  persisted (snd result) = [] /\
  finalized (snd result) = [].
Proof.
  cbn zeta. split; [|repeat split].
  intros id [<-|[<-|[]]].
  - exists Sample.org1. split; [left|]; reflexivity.
  - exists Fixture.org2. split; [right; left|]; reflexivity.
Defined.

(** Two organizations, both validated: one batch of two tuples, then the
    provider. *)
Lemma validated_organizations_are_granted_witness :
  post_consent Sample.provider Fixture.both
    (Sample.details (Js.Str "app-1") (None, None))
    {| organizationIds := Some ["org-1"; "org-2"] |} []
  = (Resolved {| redirectTo := "https://app.example.com/cb?code=1" |},
     [ValidateMembership "user-1" ["org-1"; "org-2"];
      InsertUserConsentOrganizations
        [("app-1", "user-1", "org-1"); ("app-1", "user-1", "org-2")];
      Consent (Sample.details (Js.Str "app-1") (None, None))]).
Proof.
  refine (proj1 (validated_organizations_are_granted _ _ _ _ Sample.provider
                   Fixture.both (Sample.details (Js.Str "app-1") (None, None))
                   {| organizationIds := Some ["org-1"; "org-2"] |} []
                   ["org-1"; "org-2"] {| accountId := "user-1" |} "app-1"
                   eq_refl _ eq_refl eq_refl _ eq_refl)).
  - discriminate.
  - discriminate.
Defined.

(** No session, no client id, no organization ids: the provider is still asked. *)
Lemma no_organizations_only_finalizes_witness :
  let interactionDetails :=
    {| session := None;
       params := {| client_id := Js.Undefined; redirect_uri := Js.Undefined |};
       prompt := (None, None) |} in
  post interactionDetails {| organizationIds := Some [] |} []
  = (Resolved {| redirectTo := "https://app.example.com/cb?code=1" |},
     [Consent interactionDetails]).
Proof.
  cbn zeta.
  apply (no_organizations_only_finalizes _ _ _ _ Sample.provider Sample.queries).
  right. reflexivity.
Defined.

(** The prompt reports both reserved scopes; the response keeps [profile] only. *)
Lemma reserved_oidc_scopes_never_surface_witness :
  exists response,
    get (Sample.details (Js.Str "app-1")
           (Some ["openid"; "profile"; "offline_access"], Some Sample.missing))
    = Resolved response /\
    cir_missingOIDCScope response = Some ["profile"] /\
    ~ In "openid" ["profile"] /\ ~ In "offline_access" ["profile"].
Proof.
  eexists. split; [vm_compute; reflexivity|]. split; [reflexivity|].
  eapply (reserved_oidc_scopes_never_surface Sample.reserved Sample.organizations Sample.off
            _ _ _ _ _ _ _ Sample.any Sample.any Sample.guard Sample.guard Sample.guard
            Sample.getMissingScopes Sample.no_scopes Sample.timing Sample.queries
            (Sample.details (Js.Str "app-1")
               (Some ["openid"; "profile"; "offline_access"], Some Sample.missing))).
  - vm_compute. reflexivity.
  - reflexivity.
Defined.

(** [user-1] belongs to [org-1], but the organizations scope is not missing. *)
Lemma organizations_need_the_scope_witness :
  exists response,
    get (Sample.details (Js.Str "app-1") (Some ["openid"; "profile"], Some Sample.missing))
    = Resolved response /\
    cir_organizations response = [].
Proof.
  eexists. split; [vm_compute; reflexivity|].
  eapply (organizations_need_the_scope Sample.reserved Sample.organizations Sample.off
            _ _ _ _ _ _ _ Sample.any Sample.any Sample.guard Sample.guard Sample.guard
            Sample.getMissingScopes Sample.no_scopes Sample.timing Sample.queries
            (Sample.details (Js.Str "app-1") (Some ["openid"; "profile"], Some Sample.missing))
            _ (Some ["openid"; "profile"]) (Some Sample.missing)).
  - reflexivity.
  - intros scopes [= <-] [H|[H|[]]]; discriminate.
  - vm_compute. reflexivity.
Defined.

(** With the scope missing, the organization shows up. *)
Example organizations_with_the_scope :
  exists response,
    get (Sample.details (Js.Str "app-1") (Some [Sample.organizations], None))
    = Resolved response /\
    cir_organizations response
    = [{| oi_name := "One"; oi_id := "org-1"; oi_missingResourceScopes := None |}].
Proof. eexists. split; [vm_compute; reflexivity|reflexivity]. Qed.

(** ** The further properties on the samples *)

Arguments cir_redirectUri {_ _ _} _.

Local Abbreviation get_on :=
  (get_consent Sample.reserved Sample.organizations Fixture.on Sample.any Sample.any
     Sample.guard Sample.guard Sample.guard Sample.getMissingScopes Fixture.granted
     Sample.timing Sample.queries).

Lemma enrichment_does_not_depend_on_completion_order_witness :
  enrich 7 Sample.queries (Some Sample.missing) = Resolved Sample.enrichment.
Proof.
  exact (enrichment_does_not_depend_on_completion_order Sample.reserved _ _ _
           Sample.any Sample.any 0 7 Sample.queries (Some Sample.missing)
           Sample.enrichment eq_refl).
Defined.


Lemma enrichment_is_bounded_witness :
  (length Sample.enrichment <= length (Js.keys Sample.missing))%nat.
Proof.
  exact (proj2 (enrichment_is_bounded Sample.reserved _ _ _ Sample.any Sample.any 0
                  Sample.queries)
               Sample.missing Sample.enrichment eq_refl).
Defined.

Lemma organization_record_witness :
  let record := {| mrs_resource_id := Sample.reserved; mrs_resource_name := Sample.reserved;
                   mrs_scopes := [Sample.read_member] |} in
  mrs_resource_id record = Sample.reserved /\
  mrs_resource_name record = Sample.reserved /\
  map scope_name (mrs_scopes record) = ["read:member"] /\
  Forall (fun scope => In scope (organizations_scopes_findAll Sample.queries))
         (mrs_scopes record).
Proof.
  apply (organization_record Sample.reserved _ _ _ Sample.any Sample.any Sample.queries
           ["read:member"]).
  eexists. split; reflexivity.
Defined.

(** With the dev features enabled and one scope granted, the three indicators
    stay, two of them with no name left. *)
Lemma filter_keeps_indicators_witness :
  Js.entries (filteredResourceScopes Fixture.on Fixture.granted Sample.missing
                                     Sample.queries "user-1" None)
  = [("https://files.example.com", []);
     (Sample.reserved, []);
     ("https://api.example.com", ["read:orders"])].
Proof.
  refine (proj1 (filter_keeps_indicators Fixture.on _ _ _ Fixture.granted Sample.missing
                   Sample.queries "user-1" None _)).
  apply (bool_decide_unpack _). vm_compute. reflexivity.
Defined.

Lemma filter_does_not_hide_unknown_resource_witness :
  exists description,
    filterAndParseMissingResourceScopes Sample.reserved Fixture.on Sample.any Sample.any
      Fixture.granted 0 Fixture.stray Sample.queries "user-1" None
    = Rejected (InvalidTarget description).
Proof.
  apply (filter_does_not_hide_unknown_resource Sample.reserved Fixture.on _ _ _
           Sample.any Sample.any Fixture.granted 0 Fixture.stray Sample.queries "user-1" None
           "https://nowhere.example.com" ["read:orders"]).
  - apply (bool_decide_unpack _). vm_compute. reflexivity.
  - vm_compute. right. left. reflexivity.
  - discriminate.
  - reflexivity.
Defined.

Lemma get_consent_preconditions_witness :
  get {| session := None;
         params := {| client_id := Js.Undefined; redirect_uri := Js.Undefined |};
         prompt := (None, None) |}
  = Rejected (RequestError "session.not_found").
Proof.
  exact (proj1 (get_consent_preconditions Sample.reserved Sample.organizations Sample.off
                  _ _ _ _ _ _ _ Sample.any Sample.any Sample.guard Sample.guard Sample.guard
                  Sample.getMissingScopes Sample.no_scopes Sample.timing Sample.queries
                  {| session := None;
                     params := {| client_id := Js.Undefined; redirect_uri := Js.Undefined |};
                     prompt := (None, None) |})
               eq_refl).
Defined.

Lemma get_consent_response_witness :
  exists response,
    get (Sample.details (Js.Str "app-1") (Some ["profile"], Some Sample.missing))
    = Resolved response /\
    exists session0 clientId redirectUri missingOIDCScope allMissingResourceScopes,
      Some {| accountId := "user-1" |} = Some session0 /\
      Js.Str "app-1" = Js.Str clientId /\ clientId <> "" /\
      Js.Str "https://app.example.com/cb" = Js.Str redirectUri /\ redirectUri <> "" /\
      cir_redirectUri response = redirectUri /\
      Resolved (Some ["profile"], Some Sample.missing)
      = Resolved (missingOIDCScope, allMissingResourceScopes) /\
      filterAndParseMissingResourceScopes Sample.reserved Sample.off Sample.any Sample.any
        Sample.no_scopes 0 (default [] allMissingResourceScopes) Sample.queries
        (accountId session0) None
      = Resolved (cir_missingResourceScopes response).
Proof.
  eexists. split; [vm_compute; reflexivity|].
  apply (get_consent_response Sample.reserved Sample.organizations Sample.off
           _ _ _ _ _ _ _ Sample.any Sample.any Sample.guard Sample.guard Sample.guard
           Sample.getMissingScopes Sample.no_scopes Sample.timing Sample.queries
           (Sample.details (Js.Str "app-1") (Some ["profile"], Some Sample.missing))).
  vm_compute. reflexivity.
Defined.

(** With the dev features enabled the entry of [org-1] carries the enrichment
    computed for that organization. *)
Lemma get_consent_organizations_witness :
  exists response,
    get_on (Sample.details (Js.Str "app-1")
              (Some [Sample.organizations], Some Sample.missing))
    = Resolved response /\
    Forall2
      (fun organization info =>
         oi_id info = organization_id organization /\
         oi_name info = organization_name organization /\
         exists missingResourceScopes,
           oi_missingResourceScopes info = Some missingResourceScopes /\
           filterAndParseMissingResourceScopes Sample.reserved Fixture.on Sample.any
             Sample.any Fixture.granted 0 Sample.missing Sample.queries "user-1"
             (Some (organization_id organization))
           = Resolved missingResourceScopes)
      [Sample.org1] (cir_organizations response).
Proof.
  eexists. split; [vm_compute; reflexivity|].
  apply (get_consent_organizations Sample.reserved Sample.organizations Fixture.on
           _ _ _ _ _ _ _ Sample.any Sample.any Sample.guard Sample.guard Sample.guard
           Sample.getMissingScopes Fixture.granted Sample.timing Sample.queries
           (Sample.details (Js.Str "app-1")
              (Some [Sample.organizations], Some Sample.missing))
           _ {| accountId := "user-1" |} (Some [Sample.organizations])
           (Some Sample.missing) [Sample.organizations]).
  - vm_compute. reflexivity.
  - reflexivity.
  - reflexivity.
  - reflexivity.
  - left. reflexivity.
Defined.

Lemma get_consent_unknown_resource_witness :
  exists description,
    get_on (Sample.details (Js.Str "app-1") (None, Some Fixture.stray))
    = Rejected (InvalidTarget description).
Proof.
  apply (get_consent_unknown_resource Sample.reserved Sample.organizations Fixture.on
           _ _ _ _ _ _ _ Sample.any Sample.any Sample.guard Sample.guard Sample.guard
           Sample.getMissingScopes Fixture.granted Sample.timing Sample.queries
           (Sample.details (Js.Str "app-1") (None, Some Fixture.stray))
           {| accountId := "user-1" |} "app-1" "https://app.example.com/cb"
           "app-1" "user-1" None Fixture.stray
           "https://nowhere.example.com" ["read:orders"]).
  - reflexivity.
  - reflexivity.
  - discriminate.
  - reflexivity.
  - discriminate.
  - reflexivity.
  - reflexivity.
  - reflexivity.
  - apply (bool_decide_unpack _). vm_compute. reflexivity.
  - vm_compute. right. left. reflexivity.
  - discriminate.
  - reflexivity.
Defined.

Lemma post_consent_preconditions_witness :
  let interactionDetails :=
    {| session := None;
       params := {| client_id := Js.Str "app-1"; redirect_uri := Js.Undefined |};
       prompt := (None, None) |} in
  post interactionDetails {| organizationIds := Some ["org-1"] |} []
  = (Rejected (RequestError "session.not_found"), []).
Proof.
  cbn zeta.
  refine (proj1 (post_consent_preconditions _ _ _ _ Sample.provider Sample.queries
                   {| session := None;
                      params := {| client_id := Js.Str "app-1";
                                   redirect_uri := Js.Undefined |};
                      prompt := (None, None) |}
                   {| organizationIds := Some ["org-1"] |} [] ["org-1"] eq_refl _)
                eq_refl).
  discriminate.
Defined.

Lemma post_consent_finalizes_once_witness :
  let interactionDetails := Sample.details (Js.Str "app-1") (None, None) in
  let result := post interactionDetails {| organizationIds := Some ["org-1"] |} [] in
  exists before,
    snd result = before ++ [Consent interactionDetails] /\
    Sample.provider before interactionDetails
    = Resolved "https://app.example.com/cb?code=1" /\
    finalized (snd result) = [interactionDetails].
Proof.
  cbn zeta.
  exact (proj2 (post_consent_finalizes_once _ _ _ _ Sample.provider Sample.queries
                  (Sample.details (Js.Str "app-1") (None, None))
                  {| organizationIds := Some ["org-1"] |} [])
               {| redirectTo := "https://app.example.com/cb?code=1" |} eq_refl).
Defined.

(** Selecting [write] leaves [read] selected. *)
Lemma onSelectScope_toggles_witness :
  SourceScopesBox.isScopeAdded
    (SourceScopesBox.onSelectScope [Fixture.read] Fixture.write) Fixture.read
  = SourceScopesBox.isScopeAdded [Fixture.read] Fixture.read.
Proof.
  refine (proj2 (onSelectScope_toggles [Fixture.read] Fixture.write) Fixture.read _).
  discriminate.
Defined.

Lemma onSelectScope_twice_witness :
  SourceScopesBox.onSelectScope
    (SourceScopesBox.onSelectScope [Fixture.read] Fixture.write) Fixture.write
  = [Fixture.read].
Proof.
  exact (onSelectScope_twice [Fixture.read] Fixture.write eq_refl).
Defined.

(** One of the two scopes of the resource is selected: selecting the resource
    selects the other too. *)
Lemma onSelectResource_toggles_all_witness :
  SourceScopesBox.isScopeAdded
    (SourceScopesBox.onSelectResource [Fixture.read] Fixture.orders) Fixture.write
  = true.
Proof.
  refine (proj1 (onSelectResource_toggles_all [Fixture.read] Fixture.orders)
                Fixture.write _).
  right. left. reflexivity.
Defined.

Lemma selection_keeps_ids_distinct_witness :
  NoDup (map SourceScopesBox.sr_id
             (SourceScopesBox.onSelectResource [Fixture.read] Fixture.orders)).
Proof.
  refine (proj2 (selection_keeps_ids_distinct [Fixture.read] Fixture.write Fixture.orders _)
                _).
  - apply (bool_decide_unpack _). vm_compute. reflexivity.
  - apply (bool_decide_unpack _). vm_compute. reflexivity.
Defined.

(** The role has [read:orders] already: the orders resource is offered with
    [write:orders] alone, and the files resource is not offered. *)
Lemma resources_offered_witness :
  let offer := {| SourceScopesBox.dr_resource := Sample.api;
                  SourceScopesBox.dr_scopes := [Fixture.write] |} in
  SourceScopesBox.dr_scopes offer <> [] /\
  forall scope,
    In scope (SourceScopesBox.dr_scopes offer) ->
    SourceScopesBox.sr_id scope <> Fixture.managementApiScopeAll /\
    (forall existing, Some [Sample.read_orders] = Some existing ->
                      ~ In (SourceScopesBox.sr_id scope) (map scope_id existing)) /\
    SourceScopesBox.sr_resource scope = SourceScopesBox.dr_resource offer.
Proof.
  cbn zeta.
  refine (proj2 (proj2 (resources_offered Fixture.managementApiScopeAll (Some "role-1")
                          (Some Fixture.fetched) (Some [Sample.read_orders]))) _ _).
  vm_compute. left. reflexivity.
Defined.

Lemma resources_complete_witness :
  exists resource,
    In resource (SourceScopesBox.resources Fixture.managementApiScopeAll (Some "role-1")
                   (Some Fixture.fetched) (Some [Sample.read_orders])) /\
    SourceScopesBox.dr_resource resource = Sample.api /\
    In Fixture.write (SourceScopesBox.dr_scopes resource).
Proof.
  refine (resources_complete Fixture.managementApiScopeAll (Some "role-1") Fixture.fetched
            (Some [Sample.read_orders])
            {| SourceScopesBox.rr_resource := Sample.api;
               SourceScopesBox.rr_scopes := [Sample.read_orders; Fixture.write_orders] |}
            Fixture.write_orders _ _ _ _ _).
  - intros _. by eexists.
  - left. reflexivity.
  - right. left. reflexivity.
  - discriminate.
  - intros existing [= <-] [H|[]]. discriminate.
Defined.

Lemma dataSource_search_witness :
  sublist (map SourceScopesBox.dr_resource
               (SourceScopesBox.dataSource Fixture.lower Fixture.lower "write"
                                           [Fixture.orders]))
          (map SourceScopesBox.dr_resource [Fixture.orders]).
Proof.
  refine (proj1 (proj2 (dataSource_search Fixture.lower Fixture.lower "write"
                          [Fixture.orders]) _)).
  discriminate.
Defined.

(** The search for [write] shows the orders resource with its one matching
    scope. *)
Example dataSource_write :
  SourceScopesBox.dataSource Fixture.lower Fixture.lower "write" [Fixture.orders]
  = [{| SourceScopesBox.dr_resource := Sample.api;
        SourceScopesBox.dr_scopes := [Fixture.write] |}].
Proof. reflexivity. Qed.

Lemma isEmpty_means_fetched_witness :
  is_Some (Some (@nil SourceScopesBox.ResourceResponse)) /\
  (Js.Boolean_of None = true -> is_Some (@None (list Scope))) /\
  @None unit = None /\
  (Js.Boolean_of None = true -> @None unit = None) /\
  @nil SourceScopesBox.DetailedResourceResponse = [].
Proof.
  exact (isEmpty_means_fetched None (Some []) None None None [] eq_refl).
Defined.
